(** * Job lifecycle of the gemini-worker services

    A shallow embedding of the job worker endpoints ([POST /process]) and of
    the retry helper [callGeminiWithRetry] found in the repository.  The
    repository ships several near-duplicate programs; each one used here
    gets its own definition, named after the file (and, where a file holds
    more than one program, the position of the program inside it):

    - [index.js], first program  (lines 1-227):   pull mode, 503 cancels
      the job with a compare-and-set and refunds [credits_used];
    - [index.js], second program (lines 407-610): pull mode with retry
      helper, every failure refunds [cost] when positive;
    - [part_003], first program  (lines 1-146):   pull mode with the older
      retry helper, every failure marks the job failed;
    - [part_005]:                                 pull mode, 503 cancels
      the job without a status guard;
    - [part_004] / [part_006]:                    push mode by [job_id];
    - [part_000], [part_001] first program:       pull mode without any
      failure compensation;
    - [part_002] (lines 175-214):                 push mode, the job in
      the request body.

    The pure helpers of [generateImage] (model and size normalisation, the
    file extension, the reference-image data URLs, the image part of a
    response) are embedded as well.

    External collaborators (the generative model, the object store, the
    database RPC [claim_next_ai_job]) are inputs of the model: the reply of
    the claim RPC is passed in, and the model call is a function from the
    attempt number to its outcome. *)

From stdpp Require Import base gmap strings list.
From Stdlib Require Import ZArith Lia Ascii.

Open Scope Z_scope.

(* ------------------------------------------------------------------ *)
(** ** Errors thrown inside a request *)

(** An error as the code reads it: [err.name] (["Error"] for
    [new Error(...)], ["ApiError"] for the model SDK, ["StorageError"] for
    the storage client, ["TypeError"], ...), [err.status],
    [err.response.status] and [err.message]. *)
Record ApiError := mkApiError {
  err_name : string;
  err_status : option Z;
  err_response_status : option Z;
  err_message : string
}.

(** [err?.status || err?.response?.status]: a missing or zero [status]
    falls through to the response status. *)
Definition status_of (e : ApiError) : option Z :=
  match err_status e with
  | Some s => if Z.eqb s 0 then err_response_status e else Some s
  | None => err_response_status e
  end.

(** [new Error(msg)]: no status at all. *)
Definition plain_error (msg : string) : ApiError := mkApiError "Error" None None msg.

(** [String(err)], i.e. [Error.prototype.toString]: the name alone when
    the message is empty, the message alone when the name is empty, else
    [name + ": " + message]. *)
Definition js_string_of_err (e : ApiError) : string :=
  if String.eqb (err_name e) "" then err_message e
  else if String.eqb (err_message e) "" then err_name e
  else err_name e ++ ": " ++ err_message e.

(** Outcome of one invocation of the wrapped operation [fn()]. *)
Inductive Attempt (A : Type) :=
| Resolve (v : A)
| Reject (e : ApiError).
Arguments Resolve {A} v.
Arguments Reject {A} e.

(* ------------------------------------------------------------------ *)
(** ** Retry helper [callGeminiWithRetry] *)

(** What a call of the helper produces: it resolves (possibly to
    [undefined] when the loop falls through) or it throws. *)
Inductive RetryOutcome (A : Type) :=
| Returned (v : option A)
| Raised (e : ApiError).
Arguments Returned {A} v.
Arguments Raised {A} e.

(** A run of the helper: its outcome, how many times [fn] was invoked and
    the sleeps performed between invocations (milliseconds). *)
Record RetryRun (A : Type) := mkRun {
  ret : RetryOutcome A;
  invocations : nat;
  sleeps : list Z
}.
Arguments mkRun {A} ret invocations sleeps.
Arguments ret {A} r.
Arguments invocations {A} r.
Arguments sleeps {A} r.

(** [(Math.pow(2, i) * baseDelay) + (Math.random() * 2000)]; the random
    part is the [jitter] of attempt [i], a value in [0, 2000). *)
Definition backoff (baseDelay : Z) (jitter : nat -> Z) (i : nat) : Z :=
  2 ^ Z.of_nat i * baseDelay + jitter i.

Definition status_is (s : option Z) (code : Z) : bool :=
  match s with Some c => Z.eqb c code | None => false end.

Module RetryV2.
(** [index.js] lines 436-455 (= [part_002] lines 29-50):

<<
for (let i = 0; i < maxRetries; i++) {
  try { return await fn(); }
  catch (err) {
    if (i === maxRetries - 1) throw err;
    if (err.status === 503 || err.status === 429 || err.status === 500) {
      ... sleep ...; continue;
    }
    throw err;
  }
}
>>
*)
Definition retryable (s : option Z) : bool :=
  status_is s 503 || status_is s 429 || status_is s 500.

(** [fuel] is [maxRetries - i], the number of loop iterations left. *)
Fixpoint loop {A} (fn : nat -> Attempt A) (maxRetries : nat) (baseDelay : Z)
    (jitter : nat -> Z) (i fuel : nat) : RetryRun A :=
  match fuel with
  | O => mkRun (Returned None) 0 []
  | S fuel' =>
      match fn i with
      | Resolve v => mkRun (Returned (Some v)) 1 []
      | Reject e =>
          if Nat.eqb i (maxRetries - 1) then mkRun (Raised e) 1 []
          else if retryable (err_status e) then
            let r := loop fn maxRetries baseDelay jitter (S i) fuel' in
            mkRun (ret r) (S (invocations r)) (backoff baseDelay jitter i :: sleeps r)
          else mkRun (Raised e) 1 []
      end
  end.

Definition callGeminiWithRetry_with {A} (fn : nat -> Attempt A) (maxRetries : nat)
    (baseDelay : Z) (jitter : nat -> Z) : RetryRun A :=
  loop fn maxRetries baseDelay jitter 0 maxRetries.

(** [const maxRetries = 3; // Reduced from 6 to fail faster during debug] *)
Definition maxRetries (isPro : bool) : nat := 3.
Definition baseDelay (isPro : bool) : Z := if isPro then 5000 else 2000.

Definition callGeminiWithRetry {A} (fn : nat -> Attempt A) (isPro : bool)
    (jitter : nat -> Z) : RetryRun A :=
  callGeminiWithRetry_with fn (maxRetries isPro) (baseDelay isPro) jitter.
End RetryV2.

Module RetryV3.
(** [part_003] lines 25-41:

<<
const maxRetries = isPro ? 6 : 3;
const baseDelay = isPro ? 5000 : 2000;
for (let i = 0; i < maxRetries; i++) {
  try { return await fn(); }
  catch (err) {
    if (err.status === 503 || err.status === 429) { ... sleep ...; continue; }
    throw err;
  }
}
>>
*)
Definition retryable (s : option Z) : bool :=
  status_is s 503 || status_is s 429.

Fixpoint loop {A} (fn : nat -> Attempt A) (baseDelay : Z)
    (jitter : nat -> Z) (i fuel : nat) : RetryRun A :=
  match fuel with
  | O => mkRun (Returned None) 0 []
  | S fuel' =>
      match fn i with
      | Resolve v => mkRun (Returned (Some v)) 1 []
      | Reject e =>
          if retryable (err_status e) then
            let r := loop fn baseDelay jitter (S i) fuel' in
            mkRun (ret r) (S (invocations r)) (backoff baseDelay jitter i :: sleeps r)
          else mkRun (Raised e) 1 []
      end
  end.

Definition callGeminiWithRetry_with {A} (fn : nat -> Attempt A) (maxRetries : nat)
    (baseDelay : Z) (jitter : nat -> Z) : RetryRun A :=
  loop fn baseDelay jitter 0 maxRetries.

Definition maxRetries (isPro : bool) : nat := if isPro then 6%nat else 3%nat.
Definition baseDelay (isPro : bool) : Z := if isPro then 5000 else 2000.

Definition callGeminiWithRetry {A} (fn : nat -> Attempt A) (isPro : bool)
    (jitter : nat -> Z) : RetryRun A :=
  callGeminiWithRetry_with fn (maxRetries isPro) (baseDelay isPro) jitter.
End RetryV3.

(** Sample inputs. *)
Definition overloaded : ApiError := mkApiError "ApiError" (Some 503) None "The model is overloaded".
Definition always_overloaded (i : nat) : Attempt unit := Reject overloaded.
Definition no_jitter (i : nat) : Z := 0.

(* ------------------------------------------------------------------ *)
(** ** The job table [ai_jobs] and the side effects of a request *)

Inductive Status := Pending | Processing | Completed | Failed | Cancelled.

Definition Status_eqb (a b : Status) : bool :=
  match a, b with
  | Pending, Pending | Processing, Processing | Completed, Completed
  | Failed, Failed | Cancelled, Cancelled => true
  | _, _ => false
  end.

Definition is_terminal (s : Status) : bool :=
  match s with Completed | Failed | Cancelled => true | _ => false end.

(** The columns of a job the workers read.  [cost] and [credits_used]
    may be absent ([undefined]/[null]). *)
Record Job := mkJob {
  job_id : string;
  job_type : string;
  user_id : string;
  credits_used : option Z;
  cost : option Z
}.

Record Row := mkRow {
  row_job : Job;
  status : Status;
  row_error : option string;
  row_result : option string
}.

(** The object given to [.update(...)]: [None] leaves the column alone. *)
Record Patch := mkPatch {
  p_status : Status;
  p_error : option string;
  p_result : option string
}.

Definition apply_patch (r : Row) (p : Patch) : Row :=
  mkRow (row_job r) (p_status p)
    (match p_error p with Some m => Some m | None => row_error r end)
    (match p_result p with Some x => Some x | None => row_result r end).

(** The observable world of a worker: the job table, the refund RPC calls
    issued ([refund_user_credits] / [refund_credits]: user and amount), the
    number of invocations of a job handler ([generateImage], ...), and the
    log of status updates that hit a row. *)
Record World := mkWorld {
  jobs : gmap string Row;
  refunds : list (string * option Z);
  handler_calls : nat;
  status_writes : list (string * Status)
}.

(** [supabase.from("ai_jobs").update(patch).eq("id", id)]; errors of the
    update are not inspected by any variant. *)
Definition update_row (id : string) (p : Patch) (w : World) : World :=
  match jobs w !! id with
  | Some r => mkWorld (<[id := apply_patch r p]> (jobs w)) (refunds w) (handler_calls w)
                (status_writes w ++ [(id, p_status p)])
  | None => w
  end.

(** [.update(patch).eq("id", id).eq("status", expected).select().single()]:
    the updated row, or [null] when no row matched. *)
Definition update_row_if (id : string) (expected : Status) (p : Patch) (w : World)
    : option Row * World :=
  match jobs w !! id with
  | Some r =>
      if Status_eqb (status r) expected then
        (Some (apply_patch r p), update_row id p w)
      else (None, w)
  | None => (None, w)
  end.

Definition refund (user : string) (amount : option Z) (w : World) : World :=
  mkWorld (jobs w) (refunds w ++ [(user, amount)]) (handler_calls w) (status_writes w).

(** A job handler ([generateImage(job)], [analyzeMaterial(job)], ...) with
    everything it calls, as one outcome per job: a result payload or the
    error it throws. *)
Definition Handler := Job -> Attempt string.

Definition run_handler (gen : Handler) (job : Job) (w : World) : Attempt string * World :=
  (gen job, mkWorld (jobs w) (refunds w) (S (handler_calls w)) (status_writes w)).

Definition completed_patch (result : string) : Patch := mkPatch Completed None (Some result).
Definition failed_patch (msg : string) : Patch := mkPatch Failed (Some msg) None.
Definition processing_patch : Patch := mkPatch Processing None None.
Definition overload_message : string := "Model overloaded — credits refunded".
Definition cancelled_patch : Patch := mkPatch Cancelled (Some overload_message) None.

(** Reply of [supabase.rpc("claim_next_ai_job")]: [{ data, error }]. *)
Record RpcReply := mkReply {
  rpc_data : option Job;
  rpc_error : option string
}.

(** [req.headers["x-worker-secret"] !== process.env.WORKER_SECRET]
    ([undefined] as [None]). *)
Definition secret_mismatch (header env : option string) : bool :=
  match header, env with
  | Some a, Some b => negb (String.eqb a b)
  | None, None => false
  | _, _ => true
  end.

Definition positive_cost (c : option Z) : bool :=
  match c with Some n => Z.ltb 0 n | None => false end.

(* ------------------------------------------------------------------ *)
(** ** Worker endpoints [POST /process] *)

Module IndexV1.
(** [index.js] lines 45-139: pull mode, no credential check. *)

(** The [catch] block, once [job] is set (lines 89-137). *)
Definition compensate (job : Job) (e : ApiError) (w : World) : Z * World :=
  if status_is (status_of e) 503 then
    match update_row_if (job_id job) Processing cancelled_patch w with
    | (None, w1) => (200, w1)                     (* already handled *)
    | (Some _, w1) => (200, refund (user_id job) (credits_used job) w1)
    end
  else (500, update_row (job_id job) (failed_patch (js_string_of_err e)) w).

(** Lines 66-72: the type check, then [generateImage(job)]. *)
Definition execute (gen : Handler) (job : Job) (w : World) : Attempt string * World :=
  if negb (String.eqb (job_type job) "generate-image")
  then (Reject (plain_error "UNKNOWN_JOB_TYPE"), w)
  else run_handler gen job w.

Definition process (claim : RpcReply) (gen : Handler) (w : World) : Z * World :=
  match rpc_error claim with
  | Some _ => (500, w)
  | None =>
      match rpc_data claim with
      | None => (204, w)
      | Some job =>
          let '(outcome, w1) := execute gen job w in
          match outcome with
          | Resolve result => (200, update_row (job_id job) (completed_patch result) w1)
          | Reject e => compensate job e w1
          end
      end
  end.
End IndexV1.

Module IndexV2.
(** [index.js] lines 473-507: pull mode with credential check; every
    failure marks the job failed and refunds a positive [cost]. *)

Definition compensate (job : Job) (e : ApiError) (w : World) : Z * World :=
  let w1 := update_row (job_id job) (failed_patch (err_message e)) w in
  (500, if positive_cost (cost job) then refund (user_id job) (cost job) w1 else w1).

(** [generateImage(job)] / [analyzeMaterial(job)], or
    [throw new Error(`UNSUPPORTED: ${job.type}`)]. *)
Definition execute (gen : Handler) (job : Job) (w : World) : Attempt string * World :=
  if String.eqb (job_type job) "generate-image" then run_handler gen job w
  else if String.eqb (job_type job) "analyze-material" then run_handler gen job w
  else (Reject (plain_error ("UNSUPPORTED: " ++ job_type job)), w).

Definition process (header env_secret : option string) (claim : RpcReply)
    (gen : Handler) (w : World) : Z * World :=
  if secret_mismatch header env_secret then (401, w) else
  match rpc_data claim with
  | None => (204, w)
  | Some job =>
      let '(outcome, w1) := execute gen job w in
      match outcome with
      | Resolve result => (200, update_row (job_id job) (completed_patch result) w1)
      | Reject e => compensate job e w1
      end
  end.
End IndexV2.

Module Part003.
(** [part_003] lines 46-71: pull mode with credential check; the claim's
    [error] is not read; every failure marks the job failed. *)

(** [generateImage(job)] / [analyzeMaterial(job)], or
    [throw new Error(`UNSUPPORTED: ${job.type}`)]. *)
Definition execute (gen : Handler) (job : Job) (w : World) : Attempt string * World :=
  if String.eqb (job_type job) "generate-image" then run_handler gen job w
  else if String.eqb (job_type job) "analyze-material" then run_handler gen job w
  else (Reject (plain_error ("UNSUPPORTED: " ++ job_type job)), w).

Definition process (header env_secret : option string) (claim : RpcReply)
    (gen : Handler) (w : World) : Z * World :=
  if secret_mismatch header env_secret then (401, w) else
  match rpc_data claim with
  | None => (204, w)
  | Some job =>
      let '(outcome, w1) := execute gen job w in
      match outcome with
      | Resolve result => (200, update_row (job_id job) (completed_patch result) w1)
      | Reject e => (500, update_row (job_id job) (failed_patch (err_message e)) w1)
      end
  end.
End Part003.

Module Part005.
(** [part_005] lines 42-108: pull mode; a 503 cancels the job with a plain
    update (no [.eq("status", "processing")]) and refunds. *)

Definition compensate (job : Job) (e : ApiError) (w : World) : Z * World :=
  if status_is (status_of e) 503 then
    (200, refund (user_id job) (credits_used job)
            (update_row (job_id job) cancelled_patch w))
  else (500, update_row (job_id job) (failed_patch (js_string_of_err e)) w).

Definition execute (gen : Handler) (job : Job) (w : World) : Attempt string * World :=
  if negb (String.eqb (job_type job) "generate-image")
  then (Reject (plain_error "UNSUPPORTED_JOB_TYPE"), w)
  else run_handler gen job w.

(** Lines 12-24 stop the program at startup ([process.exit(1)]) unless
    [SUPABASE_URL], [SUPABASE_SERVICE_ROLE_KEY], [API_KEY] and
    [WORKER_SECRET] are all set and non-empty: a request always meets a
    [WORKER_SECRET] that is a string. *)
Definition process (header : option string) (env_secret : string) (claim : RpcReply)
    (gen : Handler) (w : World) : Z * World :=
  if secret_mismatch header (Some env_secret) then (401, w) else
  match rpc_error claim with
  | Some _ => (500, w)
  | None =>
      match rpc_data claim with
      | None => (204, w)
      | Some job =>
          let '(outcome, w1) := execute gen job w in
          match outcome with
          | Resolve result => (200, update_row (job_id job) (completed_patch result) w1)
          | Reject e => compensate job e w1
          end
      end
  end.
End Part005.

(** Push mode: [const { job_id } = req.body], the row is read with
    [.select("*").eq("id", job_id).single()]. *)
Module Part004.
(** [part_004] lines 46-110. *)
Definition dispatch (gen : Handler) (job : Job) (w : World) : Attempt string * World :=
  if String.eqb (job_type job) "generate-image" then run_handler gen job w
  else if String.eqb (job_type job) "generate-video" then run_handler gen job w
  else if String.eqb (job_type job) "analyze-material" then run_handler gen job w
  else (Reject (plain_error "UNKNOWN_JOB_TYPE"), w).

Definition process (req_job_id : string) (gen : Handler) (w : World) : Z * World :=
  if String.eqb req_job_id "" then (400, w) else
  match jobs w !! req_job_id with
  | None => (404, w)
  | Some row =>
      let w1 := update_row req_job_id processing_patch w in
      let '(outcome, w2) := dispatch gen (row_job row) w1 in
      match outcome with
      | Resolve result => (200, update_row req_job_id (completed_patch result) w2)
      | Reject e => (500, update_row req_job_id (failed_patch (js_string_of_err e)) w2)
      end
  end.
End Part004.

Module Part006.
(** [part_006] lines 114-169; the 90 s [withTimeout] is part of the
    handler's outcome. *)
Definition dispatch (gen : Handler) (job : Job) (w : World) : Attempt string * World :=
  if String.eqb (job_type job) "generate-image" then run_handler gen job w
  else (Reject (plain_error ("UNKNOWN_JOB_TYPE: " ++ job_type job)), w).

Definition process (req_job_id : string) (gen : Handler) (w : World) : Z * World :=
  if String.eqb req_job_id "" then (400, w) else
  match jobs w !! req_job_id with
  | None => (404, w)
  | Some row =>
      let w1 := update_row req_job_id processing_patch w in
      let '(outcome, w2) := dispatch gen (row_job row) w1 in
      match outcome with
      | Resolve result => (200, update_row req_job_id (completed_patch result) w2)
      | Reject e => (500, update_row req_job_id (failed_patch (js_string_of_err e)) w2)
      end
  end.
End Part006.

(** Two failure handlers running the [index.js] compensation of one job
    concurrently.  The compensation has two store round trips, the guarded
    cancel and the refund RPC; each is atomic at the store, so a run of
    several handlers is an interleaving of these steps.  A handler that has
    not yet touched the store is listed in [starting] with the error it
    caught; one whose guarded cancel returned the row waits in
    [awaiting_refund]. *)
Module Concurrent.
Record Threads := mkThreads {
  starting : list ApiError;
  awaiting_refund : nat
}.

(** First store round trip of [IndexV1.compensate]. *)
Definition first_step (job : Job) (e : ApiError) (rest : list ApiError) (n : nat)
    (w : World) : Threads * World :=
  if status_is (status_of e) 503 then
    match update_row_if (job_id job) Processing cancelled_patch w with
    | (None, w1) => (mkThreads rest n, w1)
    | (Some _, w1) => (mkThreads rest (S n), w1)
    end
  else (mkThreads rest n, update_row (job_id job) (failed_patch (js_string_of_err e)) w).

Inductive comp_step (job : Job) : relation (Threads * World) :=
| step_start k e ts w :
    starting ts !! k = Some e ->
    comp_step job (ts, w) (first_step job e (delete k (starting ts)) (awaiting_refund ts) w)
| step_refund es n w :
    comp_step job (mkThreads es (S n), w)
                  (mkThreads es n, refund (user_id job) (credits_used job) w).

(** Refunds issued plus refunds about to be issued. *)
Definition refunds_committed (s : Threads * World) : nat :=
  (length (refunds (snd s)) + awaiting_refund (fst s))%nat.

(** At most one refund beyond [base] is ever committed, and none while the
    row is still [processing]. *)
Definition refund_once_inv (job : Job) (base : nat) (s : Threads * World) : Prop :=
  (refunds_committed s <= base + 1)%nat /\
  (forall r, jobs (snd s) !! job_id job = Some r -> status r = Processing ->
             refunds_committed s = base).
End Concurrent.

(* ------------------------------------------------------------------ *)
(** ** String helpers of [generateImage]

    Strings are sequences of ASCII characters; [toUpperCase] is modelled on
    the ASCII letters, the only characters whose upper case can produce one
    of the size names the code compares against. *)

Fixpoint starts_with (p s : string) : bool :=
  match p, s with
  | EmptyString, _ => true
  | String c p', String d s' => Ascii.eqb c d && starts_with p' s'
  | String _ _, EmptyString => false
  end.

(** [s.includes(p)]. *)
Fixpoint includes (s p : string) : bool :=
  starts_with p s ||
  match s with EmptyString => false | String _ s' => includes s' p end.

Definition ascii_upper (c : Ascii.ascii) : Ascii.ascii :=
  let n := Ascii.nat_of_ascii c in
  if (97 <=? n)%nat && (n <=? 122)%nat then Ascii.ascii_of_nat (n - 32) else c.

(** [s.toUpperCase()]. *)
Fixpoint to_upper (s : string) : string :=
  match s with
  | EmptyString => EmptyString
  | String c s' => String (ascii_upper c) (to_upper s')
  end.

(** A string value in a truthy test: [undefined] is [None]. *)
Definition truthy_str (o : option string) : bool :=
  match o with Some s => negb (String.eqb s "") | None => false end.

(** [s.split("/")]. *)
Fixpoint split_slash (s : string) : list string :=
  match s with
  | EmptyString => [EmptyString]
  | String c s' =>
      let parts := split_slash s' in
      if Ascii.eqb c "/"%char then EmptyString :: parts
      else match parts with
           | p :: ps => String c p :: ps
           | [] => [String c EmptyString]
           end
  end.

(** [mimeType.split("/")[1] || "png"] ([part_001] lines 145 and 404,
    [part_003] line 348, [part_005] line 197, [index.js] line 193). *)
Definition extension_of (mimeType : string) : string :=
  match nth_error (split_slash mimeType) 1 with
  | Some p => if String.eqb p "" then "png" else p
  | None => "png"
  end.

(** Model-name normalisation, [part_001] lines 336-340 (= [part_003]
    lines 278-282). *)
Definition normalize_model (model : string) : string :=
  if includes model "nano" && includes model "pro" then "gemini-3-pro-image-preview"
  else if includes model "flash" || includes model "elite" then "gemini-2.5-flash-image"
  else model.

(** [const isPro = model.includes("pro")] on the normalised model
    ([part_001] line 368, [part_003] line 310). *)
Definition is_pro_model (model : string) : bool := includes (normalize_model model) "pro".

Definition valid_size (s : string) : bool :=
  String.eqb s "1K" || String.eqb s "2K" || String.eqb s "4K".

(** [String(input.config.imageSize || "1K").toUpperCase()] for a string or
    absent [imageSize]. *)
Definition requested_size (imageSize : option string) : string :=
  to_upper (if truthy_str imageSize then default "" imageSize else "1K").

(** [part_001] lines 376-380 (= [part_003] lines 319-323): an invalid size
    falls back to ["1K"]. *)
Definition image_size_v1 (imageSize : option string) : string :=
  let size := requested_size imageSize in
  if valid_size size then size else "1K".

(** [part_005] lines 166-169: an invalid size leaves [imageSize] unset. *)
Definition image_size_v5 (imageSize : option string) : option string :=
  let size := requested_size imageSize in
  if valid_size size then Some size else None.

(** The model and [imageConfig] a [generateContent] call is made with:
    [gc_size] is [None] when [imageConfig.imageSize] is not set. *)
Record GenConfig := mkGenConfig {
  gc_model : string;
  gc_aspect : string;
  gc_size : option string
}.

(** [input.config.aspectRatio || "1:1"]. *)
Definition aspect_of (aspectRatio : option string) : string :=
  if truthy_str aspectRatio then default "" aspectRatio else "1:1".

(** [part_001] lines 333-382 (= [part_003] lines 275-324): the normalised
    model, and [imageSize] only [if (isPro)]. *)
Definition gen_config_v1 (model : string) (aspectRatio imageSize : option string) : GenConfig :=
  let model' := normalize_model model in
  mkGenConfig model' (aspect_of aspectRatio)
    (if is_pro_model model then Some (image_size_v1 imageSize) else None).

(** [part_005] lines 115-170: [isPro] read off the requested name, the
    model replaced by one of the two fixed names, [imageSize] only
    [if (isPro)] and only when valid. *)
Definition gen_config_v5 (model : string) (aspectRatio imageSize : option string) : GenConfig :=
  let isPro := includes model "pro" in
  mkGenConfig (if isPro then "gemini-3-pro-image-preview" else "gemini-2.5-flash-image")
    (aspect_of aspectRatio)
    (if isPro then image_size_v5 imageSize else None).

(* ------------------------------------------------------------------ *)
(** ** Reference images given as data URLs *)

(** [\w]: [[A-Za-z0-9_]]. *)
Definition is_word (c : Ascii.ascii) : bool :=
  let n := Ascii.nat_of_ascii c in
  (((48 <=? n) && (n <=? 57)) || ((65 <=? n) && (n <=? 90)) ||
  ((97 <=? n) && (n <=? 122)) || (n =? 95))%nat.

Fixpoint all_word (s : string) : bool :=
  match s with EmptyString => true | String c s' => is_word c && all_word s' end.

Fixpoint span_word (s : string) : string * string :=
  match s with
  | String c s' =>
      if is_word c then let '(w, r) := span_word s' in (String c w, r)
      else (EmptyString, s)
  | EmptyString => (EmptyString, EmptyString)
  end.

Fixpoint strip_prefix (p s : string) : option string :=
  match p, s with
  | EmptyString, _ => Some s
  | String c p', String d s' => if Ascii.eqb c d then strip_prefix p' s' else None
  | String _ _, EmptyString => None
  end.

(** [.] matches every character but a line terminator. *)
Fixpoint no_line_terminator (s : string) : bool :=
  match s with
  | EmptyString => true
  | String c s' =>
      negb (Ascii.eqb c "010"%char) && negb (Ascii.eqb c "013"%char) &&
      no_line_terminator s'
  end.

(** [img.match(/^data:(image\/\w+);base64,(.+)$/)] with its two groups.
    [\w+] cannot give back characters to [;], so its match is the longest
    run of word characters. *)
Definition match_data_url (img : string) : option (string * string) :=
  match strip_prefix "data:image/" img with
  | None => None
  | Some r =>
      let '(w, r1) := span_word r in
      if String.eqb w "" then None else
      match strip_prefix ";base64," r1 with
      | None => None
      | Some d =>
          if String.eqb d "" then None
          else if no_line_terminator d then Some (("image/" ++ w)%string, d) else None
      end
  end.

(** A part of a [generateContent] request. *)
Inductive Part :=
| TextPart (text : string)
| InlinePart (mimeType data : string).

(** The loop over [input.referenceImages]: a reference that does not match
    is skipped ([if (!match) continue]). *)
Fixpoint reference_parts (refs : list string) : list Part :=
  match refs with
  | [] => []
  | img :: refs' =>
      match match_data_url img with
      | Some (m, d) => InlinePart m d :: reference_parts refs'
      | None => reference_parts refs'
      end
  end.

(** [part_001] lines 99-113 (= [part_000] lines 93-107, [index.js]
    lines 149-163): the prompt first, then the references. *)
Definition request_parts (prompt : string) (refs : list string) : list Part :=
  TextPart prompt :: reference_parts refs.

(** [part_006] line 103: the image URL returned for an inline image. *)
Definition image_url_of (data : string) : string := ("data:image/png;base64," ++ data)%string.

(* ------------------------------------------------------------------ *)
(** ** The image part of a [generateContent] response *)

Record InlineData := mkInline {
  inline_mime : option string;
  inline_data : option string
}.

(** A response part: [part.inlineData] is present or not. *)
Record RespPart := mkRespPart { inline_of : option InlineData }.

(** [part_001] lines 126-139 (= [index.js] lines 176-187 and [part_005]
    lines 178-191): the loop stops at the first
    part that has [inlineData], whatever its [data]; a missing image throws.
    The result is [imageBase64] and [mimeType]. *)
Fixpoint first_inline (ps : list RespPart) : option InlineData :=
  match ps with
  | [] => None
  | p :: ps' => match inline_of p with Some d => Some d | None => first_inline ps' end
  end.

Definition extract_break (ps : list RespPart) : Attempt (string * option string) :=
  match first_inline ps with
  | Some d =>
      if truthy_str (inline_data d) then Resolve (default "" (inline_data d), inline_mime d)
      else Reject (plain_error "NO_IMAGE_RETURNED")
  | None => Reject (plain_error "NO_IMAGE_RETURNED")
  end.

(** [partsList.find((p) => p.inlineData && p.inlineData.data)] and
    [imagePart?.inlineData?.data] ([part_002] lines 110-112, [index.js]
    lines 553-555); the same as the [part.inlineData?.data] loop of
    [part_004] lines 145-150. *)
Fixpoint extract_find (ps : list RespPart) : option string :=
  match ps with
  | [] => None
  | p :: ps' =>
      match inline_of p with
      | Some d => if truthy_str (inline_data d) then inline_data d else extract_find ps'
      | None => extract_find ps'
      end
  end.

(* ------------------------------------------------------------------ *)
(** ** More worker endpoints *)

(** Pull mode without compensation: [part_000] lines 45-87 (= [part_001]
    lines 45-91): the [catch] block only answers 500.  The dispatch is
    [IndexV1.execute].  [index.js] lines 271-312 has the same shape; its
    unknown-type error reads [UNKNOWN_JOB_TYPE: ${job.type}], a message its
    [catch] block never looks at. *)
Module NoCompensation.
Definition process (claim : RpcReply) (gen : Handler) (w : World) : Z * World :=
  match rpc_error claim with
  | Some _ => (500, w)
  | None =>
      match rpc_data claim with
      | None => (204, w)
      | Some job =>
          let '(outcome, w1) := IndexV1.execute gen job w in
          match outcome with
          | Resolve result => (200, update_row (job_id job) (completed_patch result) w1)
          | Reject _ => (500, w1)
          end
      end
  end.
End NoCompensation.

(** Push mode of [part_002] lines 175-214: the job comes in the body. *)
Module Part002.
Record Body := mkBody {
  b_job_id : option string;
  b_action : string;
  b_user_id : string;
  b_cost : option Z
}.

Definition body_job (b : Body) : Job :=
  mkJob (default "" (b_job_id b)) (b_action b) (b_user_id b) None (b_cost b).

(** [.update(...).eq("id", job.id)]; with [job.id] undefined no row
    matches. *)
Definition update_by_id (id : option string) (p : Patch) (w : World) : World :=
  match id with Some i => update_row i p w | None => w end.

Definition process (header env_secret : option string) (body : Body) (gen : Handler)
    (w : World) : Z * World :=
  if secret_mismatch header env_secret then (401, w) else
  if negb (String.eqb (b_action body) "generate-image" ||
           String.eqb (b_action body) "analyze-material") then (400, w) else
  let job := body_job body in
  let '(outcome, w1) := run_handler gen job w in
  match outcome with
  | Resolve result => (200, update_by_id (b_job_id body) (completed_patch result) w1)
  | Reject e =>
      (500,
       if truthy_str (b_job_id body) then
         let w2 := update_row (job_id job) (failed_patch (err_message e)) w1 in
         if positive_cost (cost job) then refund (user_id job) (cost job) w2 else w2
       else w1)
  end.
End Part002.

(** Sample data. *)
Definition job_j3 : Job := mkJob "j3" "generate-image" "u1" None None.
Definition row_j3 (s : Status) : Row := mkRow job_j3 s None None.
Definition world_with (id : string) (r : Row) : World :=
  mkWorld {[ id := r ]} [] 0 [].
Definition gen_ok : Handler := fun _ => Resolve "https://store/x.png".
Definition gen_overloaded : Handler := fun _ => Reject overloaded.
Definition rate_limited : ApiError := mkApiError "ApiError" (Some 429) None "Too many requests".
Definition bad_request : ApiError := mkApiError "ApiError" (Some 400) None "Invalid argument".
Definition job_j2 : Job := mkJob "j2" "generate-video" "u1" (Some 5) (Some 5).
Definition job_j5 : Job := mkJob "j5" "generate-image" "u1" (Some 5) None.
Definition always_fatal (i : nat) : Attempt unit := Reject bad_request.

(* ================================================================== *)
(** * Properties *)

Example retry_v2_sample :
  RetryV2.callGeminiWithRetry always_overloaded false no_jitter
  = mkRun (Raised overloaded) 3 [2000; 4000].
Proof. reflexivity. Qed.

Example retry_v3_sample :
  RetryV3.callGeminiWithRetry always_overloaded false no_jitter
  = mkRun (Returned None) 3 [2000; 4000; 8000].
Proof. reflexivity. Qed.


(* ------------------------------------------------------------------ *)
(** ** Retry helper *)

(** Under the [index.js] helper, an operation failing with a retryable
    status on every call is invoked 3 times and the error of the third call
    is re-thrown, for both tiers. *)
Lemma retry_v2_exhausted_rethrows (errs : nat -> ApiError) (isPro : bool) (jitter : nat -> Z) :
  (forall i, RetryV2.retryable (err_status (errs i)) = true) ->
  RetryV2.callGeminiWithRetry (fun i => @Reject unit (errs i)) isPro jitter
  = mkRun (Raised (errs 2%nat)) 3
      [backoff (RetryV2.baseDelay isPro) jitter 0; backoff (RetryV2.baseDelay isPro) jitter 1].
Proof.
  intros Hr. unfold RetryV2.callGeminiWithRetry, RetryV2.callGeminiWithRetry_with.
  simpl. rewrite !Hr. reflexivity.
Qed.

(** C1 (fails in [part_003]): with [maxRetries = 3] (default tier), the
    [part_003] helper invokes an always-overloaded operation 3 times and then
    leaves the loop and resolves to [undefined] instead of re-throwing the
    last error. *)
Lemma retry_v3_exhausted_returns_undefined (jitter : nat -> Z) :
  ret (RetryV3.callGeminiWithRetry always_overloaded false jitter) = Returned None /\
  invocations (RetryV3.callGeminiWithRetry always_overloaded false jitter) = 3%nat.
Proof. split; reflexivity. Qed.

(** C2: whatever the number of attempts configured (at least one), an
    operation whose first call throws a non-retryable error is invoked once
    and that error is re-thrown at once, in both helpers. *)
Theorem retry_fatal_short_circuit {A} (fn : nat -> Attempt A) (e : ApiError)
    (maxR : nat) (bd : Z) (jitter : nat -> Z) :
  (1 <= maxR)%nat -> fn 0%nat = Reject e ->
  (RetryV2.retryable (err_status e) = false ->
   RetryV2.callGeminiWithRetry_with fn maxR bd jitter = mkRun (Raised e) 1 []) /\
  (RetryV3.retryable (err_status e) = false ->
   RetryV3.callGeminiWithRetry_with fn maxR bd jitter = mkRun (Raised e) 1 []).
Proof.
  intros Hm Hfn. destruct maxR as [|m]; [lia|].
  split; intros Hr.
  - unfold RetryV2.callGeminiWithRetry_with. simpl. rewrite Hfn, Hr.
    destruct (m - 0)%nat; reflexivity.
  - unfold RetryV3.callGeminiWithRetry_with. simpl. rewrite Hfn, Hr. reflexivity.
Qed.

Lemma retry_fatal_short_circuit_witness :
  (1 <= 3)%nat /\ always_fatal 0%nat = Reject bad_request /\
  RetryV2.callGeminiWithRetry_with always_fatal 3 2000 no_jitter = mkRun (Raised bad_request) 1 [] /\
  RetryV3.callGeminiWithRetry_with always_fatal 3 2000 no_jitter = mkRun (Raised bad_request) 1 [].
Proof.
  assert (H : (1 <= 3)%nat) by lia.
  destruct (retry_fatal_short_circuit always_fatal bad_request 3 2000 no_jitter H eq_refl)
    as [H2 H3].
  split; [exact H|]. split; [reflexivity|].
  split; [apply H2; reflexivity | apply H3; reflexivity].
Defined.

(** The base delay only changes the sleeps of the [index.js] helper. *)
Lemma retry_v2_loop_baseDelay_indep {A} (fn : nat -> Attempt A) (mr : nat) (bd1 bd2 : Z)
    (jitter : nat -> Z) (fuel : nat) : forall i,
  ret (RetryV2.loop fn mr bd1 jitter i fuel) = ret (RetryV2.loop fn mr bd2 jitter i fuel) /\
  invocations (RetryV2.loop fn mr bd1 jitter i fuel)
  = invocations (RetryV2.loop fn mr bd2 jitter i fuel).
Proof.
  induction fuel as [|fuel IH]; intros i; simpl; [split; reflexivity|].
  destruct (fn i) as [v|e]; [split; reflexivity|].
  destruct (Nat.eqb i (mr - 1)); [split; reflexivity|].
  destruct (RetryV2.retryable (err_status e)); [|split; reflexivity].
  simpl. destruct (IH (S i)) as [H1 H2]. rewrite H1, H2. split; reflexivity.
Qed.

(** C9 (counterexample): in the [index.js] helper an always-overloaded
    operation is invoked as many times for a pro-tier job as for a default
    one; the pro tier does not get more attempts. *)
Lemma pro_tier_same_attempts :
  ~ (RetryV2.maxRetries true > RetryV2.maxRetries false)%nat /\
  ~ (invocations (RetryV2.callGeminiWithRetry always_overloaded true no_jitter)
     > invocations (RetryV2.callGeminiWithRetry always_overloaded false no_jitter))%nat.
Proof. vm_compute. split; lia. Qed.

(** C9 (amended): the pro tier always gets the larger base delay (5000 ms
    against 2000 ms).  In the [index.js] helper both tiers get 3 attempts,
    and the outcome and number of invocations of any operation are the same
    for both tiers; only the [part_003] helper gives the pro tier more
    attempts (6 against 3). *)
Theorem pro_tier_retry_policy :
  RetryV2.baseDelay true > RetryV2.baseDelay false /\
  RetryV2.maxRetries true = RetryV2.maxRetries false /\
  (forall A (fn : nat -> Attempt A) jitter,
     ret (RetryV2.callGeminiWithRetry fn true jitter)
     = ret (RetryV2.callGeminiWithRetry fn false jitter) /\
     invocations (RetryV2.callGeminiWithRetry fn true jitter)
     = invocations (RetryV2.callGeminiWithRetry fn false jitter)) /\
  RetryV3.baseDelay true > RetryV3.baseDelay false /\
  (RetryV3.maxRetries true > RetryV3.maxRetries false)%nat.
Proof.
  split; [simpl; lia|]. split; [reflexivity|].
  split; [|simpl; split; lia].
  intros A fn jitter. apply retry_v2_loop_baseDelay_indep.
Qed.

(* ------------------------------------------------------------------ *)
(** ** Store operations *)

Lemma run_handler_store (gen : Handler) (job : Job) (w : World) :
  jobs (snd (run_handler gen job w)) = jobs w /\
  refunds (snd (run_handler gen job w)) = refunds w /\
  status_writes (snd (run_handler gen job w)) = status_writes w.
Proof. split_and!; reflexivity. Qed.

Ltac execute_store :=
  repeat match goal with
  | |- context [if ?b then _ else _] => destruct b
  end; simpl; split_and!; reflexivity.

Lemma IndexV1_execute_store (gen : Handler) (job : Job) (w : World) :
  let w1 := snd (IndexV1.execute gen job w) in
  jobs w1 = jobs w /\ refunds w1 = refunds w /\ status_writes w1 = status_writes w.
Proof. unfold IndexV1.execute. execute_store. Qed.

Lemma IndexV2_execute_store (gen : Handler) (job : Job) (w : World) :
  let w1 := snd (IndexV2.execute gen job w) in
  jobs w1 = jobs w /\ refunds w1 = refunds w /\ status_writes w1 = status_writes w.
Proof. unfold IndexV2.execute. execute_store. Qed.

Lemma Part003_execute_store (gen : Handler) (job : Job) (w : World) :
  let w1 := snd (Part003.execute gen job w) in
  jobs w1 = jobs w /\ refunds w1 = refunds w /\ status_writes w1 = status_writes w.
Proof. unfold Part003.execute. execute_store. Qed.

Lemma update_row_found (id : string) (p : Patch) (w : World) (r : Row) :
  jobs w !! id = Some r ->
  jobs (update_row id p w) !! id = Some (apply_patch r p) /\
  refunds (update_row id p w) = refunds w /\
  status_writes (update_row id p w) = status_writes w ++ [(id, p_status p)].
Proof.
  intros Hr. unfold update_row. rewrite Hr. simpl.
  split_and!; [apply lookup_insert_eq | reflexivity | reflexivity].
Qed.

Lemma update_row_refunds (id : string) (p : Patch) (w : World) :
  refunds (update_row id p w) = refunds w.
Proof. unfold update_row. destruct (jobs w !! id); reflexivity. Qed.

(* ------------------------------------------------------------------ *)
(** ** Failure compensation *)

(** C3 (counterexample): the [index.js] handler refunds on a 503 even when
    the job records no cost at all ([credits_used] and [cost] absent): the
    refund RPC is called with [p_credits: undefined]. *)
Lemma overload_refunds_without_cost :
  let w := snd (IndexV1.process (mkReply (Some job_j3) None) gen_overloaded
                  (world_with "j3" (row_j3 Processing))) in
  positive_cost (credits_used job_j3) = false /\ positive_cost (cost job_j3) = false /\
  refunds w = [("u1", None)].
Proof. vm_compute. split_and!; reflexivity. Qed.

(** C3 (amended): in the [index.js] handler, when the claimed job's handler
    throws an error of status 503, the row is set to [cancelled] with the
    message "Model overloaded — credits refunded" and one refund of
    [job.credits_used] (whatever it is) goes to [job.user_id], provided the
    row is still [processing]; otherwise nothing is written and nothing is
    refunded.  The response is 200 in both cases. *)
Theorem overload_cancels_and_refunds (claim : RpcReply) (gen : Handler) (w : World)
    (job : Job) (e : ApiError) (r : Row) :
  rpc_error claim = None -> rpc_data claim = Some job ->
  fst (IndexV1.execute gen job w) = Reject e ->
  status_of e = Some 503 ->
  jobs w !! job_id job = Some r ->
  IndexV1.process claim gen w =
    (let w1 := snd (IndexV1.execute gen job w) in
     if Status_eqb (status r) Processing
     then (200, refund (user_id job) (credits_used job)
                  (update_row (job_id job) cancelled_patch w1))
     else (200, w1)).
Proof.
  intros Herr Hdata Hfail H503 Hr.
  destruct (IndexV1_execute_store gen job w) as (Hj & _ & _).
  unfold IndexV1.process. rewrite Herr, Hdata.
  destruct (IndexV1.execute gen job w) as [o w1] eqn:E. simpl in *. subst o.
  unfold IndexV1.compensate. rewrite H503. simpl.
  unfold update_row_if. rewrite Hj, Hr.
  destruct (Status_eqb (status r) Processing); reflexivity.
Qed.

Lemma overload_cancels_and_refunds_witness :
  IndexV1.process (mkReply (Some job_j3) None) gen_overloaded
    (world_with "j3" (row_j3 Processing))
  = (200, refund "u1" None
            (update_row "j3" cancelled_patch
               (snd (IndexV1.execute gen_overloaded job_j3
                       (world_with "j3" (row_j3 Processing)))))).
Proof.
  exact (overload_cancels_and_refunds (mkReply (Some job_j3) None) gen_overloaded
           (world_with "j3" (row_j3 Processing)) job_j3 overloaded (row_j3 Processing)
           eq_refl eq_refl eq_refl eq_refl eq_refl).
Defined.

(** The [catch] block of the [part_002] push handler when the body
    carries a non-empty job id. *)
Lemma part002_catch (header env : option string) (b : Part002.Body) (gen : Handler)
    (w : World) (e : ApiError) (i : string) (r : Row) :
  secret_mismatch header env = false ->
  (String.eqb (Part002.b_action b) "generate-image" ||
   String.eqb (Part002.b_action b) "analyze-material") = true ->
  gen (Part002.body_job b) = Reject e ->
  Part002.b_job_id b = Some i -> i <> "" -> jobs w !! i = Some r ->
  fst (Part002.process header env b gen w) = 500 /\
  jobs (snd (Part002.process header env b gen w)) !! i
  = Some (apply_patch r (failed_patch (err_message e))) /\
  refunds (snd (Part002.process header env b gen w))
  = refunds w ++ (if positive_cost (Part002.b_cost b)
                  then [(Part002.b_user_id b, Part002.b_cost b)] else []).
Proof.
  intros Hs Ha He Hid Hne Hr.
  unfold Part002.process. rewrite Hs, Ha. cbn [negb]. unfold run_handler. rewrite He.
  rewrite Hid. cbn [truthy_str]. apply String.eqb_neq in Hne. rewrite Hne. cbn [negb].
  unfold Part002.body_job. rewrite Hid. cbn [default id job_id cost user_id].
  set (w1 := mkWorld (jobs w) (refunds w) (S (handler_calls w)) (status_writes w)).
  assert (Hr1 : jobs w1 !! i = Some r) by exact Hr.
  destruct (update_row_found i (failed_patch (err_message e)) w1 r Hr1) as (H1 & H2 & _).
  destruct (positive_cost (Part002.b_cost b)); cbn [fst snd].
  - split_and!; [reflexivity | exact H1 | cbn [refunds refund]; rewrite H2; reflexivity].
  - split_and!; [reflexivity | exact H1 | rewrite H2, app_nil_r; reflexivity].
Qed.

(** C4 (counterexample): the second [index.js] handler refunds the cost of
    a job that failed for an unsupported type. *)
Lemma failure_refunds_cost :
  let w := snd (IndexV2.process (Some "k") (Some "k") (mkReply (Some job_j2) None) gen_ok
                  (world_with "j2" (mkRow job_j2 Processing None None))) in
  refunds w = [("u1", Some 5)] /\ status_writes w = [("j2", Failed)].
Proof. vm_compute. split; reflexivity. Qed.

(** C4 (amended): in the first [index.js] handler an error of any status
    other than 503 marks the job [failed] with [String(err)] and refunds
    nothing; in the second [index.js] handler every error marks the job
    [failed] with [err.message] and refunds [job.cost] to [job.user_id]
    exactly when that cost is positive; the [part_002] push handler, for a
    body carrying a job id, does the same as the second [index.js]
    handler with the body's [cost] and [user_id].  All respond 500. *)
Theorem failure_marks_failed (header env : option string) (claim : RpcReply) (gen : Handler)
    (w : World) (job : Job) (e : ApiError) (r : Row) :
  rpc_data claim = Some job -> jobs w !! job_id job = Some r ->
  (rpc_error claim = None -> fst (IndexV1.execute gen job w) = Reject e ->
   status_is (status_of e) 503 = false ->
   fst (IndexV1.process claim gen w) = 500 /\
   jobs (snd (IndexV1.process claim gen w)) !! job_id job
   = Some (apply_patch r (failed_patch (js_string_of_err e))) /\
   refunds (snd (IndexV1.process claim gen w)) = refunds w) /\
  (secret_mismatch header env = false -> fst (IndexV2.execute gen job w) = Reject e ->
   fst (IndexV2.process header env claim gen w) = 500 /\
   jobs (snd (IndexV2.process header env claim gen w)) !! job_id job
   = Some (apply_patch r (failed_patch (err_message e))) /\
   refunds (snd (IndexV2.process header env claim gen w))
   = refunds w ++ (if positive_cost (cost job) then [(user_id job, cost job)] else [])) /\
  (forall (b : Part002.Body) (i : string) (r2 : Row),
   secret_mismatch header env = false ->
   (String.eqb (Part002.b_action b) "generate-image" ||
    String.eqb (Part002.b_action b) "analyze-material") = true ->
   gen (Part002.body_job b) = Reject e ->
   Part002.b_job_id b = Some i -> i <> "" -> jobs w !! i = Some r2 ->
   fst (Part002.process header env b gen w) = 500 /\
   jobs (snd (Part002.process header env b gen w)) !! i
   = Some (apply_patch r2 (failed_patch (err_message e))) /\
   refunds (snd (Part002.process header env b gen w))
   = refunds w ++ (if positive_cost (Part002.b_cost b)
                   then [(Part002.b_user_id b, Part002.b_cost b)] else [])).
Proof.
  intros Hdata Hr. split_and!; cycle 2.
  { intros b i r2. apply part002_catch. }
  - intros Herr Hfail Hn.
    destruct (IndexV1_execute_store gen job w) as (Hj & Hrf & _).
    unfold IndexV1.process. rewrite Herr, Hdata.
    destruct (IndexV1.execute gen job w) as [o w1] eqn:E. simpl in *. subst o.
    unfold IndexV1.compensate. rewrite Hn. simpl.
    rewrite <- Hj in Hr.
    destruct (update_row_found (job_id job) (failed_patch (js_string_of_err e)) w1 r Hr)
      as (H1 & H2 & _).
    split_and!; [reflexivity | exact H1 | rewrite H2; exact Hrf].
  - intros Hs Hfail.
    destruct (IndexV2_execute_store gen job w) as (Hj & Hrf & _).
    unfold IndexV2.process. rewrite Hs, Hdata.
    destruct (IndexV2.execute gen job w) as [o w1] eqn:E. simpl in *. subst o.
    unfold IndexV2.compensate. rewrite <- Hj in Hr.
    destruct (update_row_found (job_id job) (failed_patch (err_message e)) w1 r Hr)
      as (H1 & H2 & _).
    destruct (positive_cost (cost job)); simpl;
      split_and!; try reflexivity; try exact H1; rewrite ?H2, ?Hrf, ?app_nil_r; reflexivity.
Qed.

Lemma failure_marks_failed_witness :
  let w := world_with "j2" (mkRow job_j2 Processing None None) in
  let claim := mkReply (Some job_j2) None in
  let e := plain_error "UNKNOWN_JOB_TYPE" in
  let e2 := plain_error "UNSUPPORTED: generate-video" in
  let b := Part002.mkBody (Some "j2") "generate-image" "u1" (Some 5) in
  (fst (IndexV1.process claim gen_ok w) = 500 /\
   jobs (snd (IndexV1.process claim gen_ok w)) !! "j2"
   = Some (apply_patch (mkRow job_j2 Processing None None) (failed_patch (js_string_of_err e))) /\
   refunds (snd (IndexV1.process claim gen_ok w)) = refunds w) /\
  (fst (IndexV2.process (Some "k") (Some "k") claim gen_ok w) = 500 /\
   jobs (snd (IndexV2.process (Some "k") (Some "k") claim gen_ok w)) !! "j2"
   = Some (apply_patch (mkRow job_j2 Processing None None) (failed_patch (err_message e2))) /\
   refunds (snd (IndexV2.process (Some "k") (Some "k") claim gen_ok w))
   = refunds w ++ [("u1", Some 5)]) /\
  (fst (Part002.process (Some "k") (Some "k") b gen_overloaded w) = 500 /\
   jobs (snd (Part002.process (Some "k") (Some "k") b gen_overloaded w)) !! "j2"
   = Some (apply_patch (mkRow job_j2 Processing None None) (failed_patch (err_message overloaded))) /\
   refunds (snd (Part002.process (Some "k") (Some "k") b gen_overloaded w))
   = refunds w ++ [("u1", Some 5)]).
Proof.
  intros w claim e e2 b. split; [|split].
  - destruct (failure_marks_failed (Some "k") (Some "k") claim gen_ok w job_j2 e
                (mkRow job_j2 Processing None None) eq_refl eq_refl) as [H _].
    apply H; reflexivity.
  - destruct (failure_marks_failed (Some "k") (Some "k") claim gen_ok w job_j2 e2
                (mkRow job_j2 Processing None None) eq_refl eq_refl) as [_ [H _]].
    apply H; reflexivity.
  - destruct (failure_marks_failed (Some "k") (Some "k") claim gen_overloaded w job_j2 overloaded
                (mkRow job_j2 Processing None None) eq_refl eq_refl) as [_ [_ H]].
    apply (H b "j2"); [reflexivity | reflexivity | reflexivity | reflexivity | discriminate | reflexivity].
Defined.

(* ------------------------------------------------------------------ *)
(** ** At most one refund per job *)

Lemma Status_eqb_true (a b : Status) : Status_eqb a b = true <-> a = b.
Proof. destruct a, b; simpl; split; congruence. Qed.

(** Run sequentially, the two steps are [IndexV1.compensate]. *)
Lemma compensate_sequential (job : Job) (e : ApiError) (w : World) :
  snd (IndexV1.compensate job e w) =
  (let '(ts, w1) := Concurrent.first_step job e [] 0 w in
   match Concurrent.awaiting_refund ts with
   | O => w1
   | S _ => refund (user_id job) (credits_used job) w1
   end).
Proof.
  unfold IndexV1.compensate, Concurrent.first_step.
  destruct (status_is (status_of e) 503); [|reflexivity].
  destruct (update_row_if (job_id job) Processing cancelled_patch w) as [[r|] w1];
    reflexivity.
Qed.

Lemma comp_step_inv (job : Job) (base : nat) (s s' : Concurrent.Threads * World) :
  Concurrent.comp_step job s s' ->
  Concurrent.refund_once_inv job base s -> Concurrent.refund_once_inv job base s'.
Proof.
  unfold Concurrent.refund_once_inv, Concurrent.refunds_committed.
  intros Hstep [Hle Hproc]. destruct Hstep as [k e ts w Hk | es n w]; simpl in *.
  - unfold Concurrent.first_step.
    destruct (status_is (status_of e) 503).
    + unfold update_row_if. destruct (jobs w !! job_id job) as [r0|] eqn:Hr0.
      * destruct (Status_eqb (status r0) Processing) eqn:Hs; simpl.
        -- apply Status_eqb_true in Hs.
           destruct (update_row_found (job_id job) cancelled_patch w r0 Hr0)
             as (H1 & H2 & _).
           specialize (Hproc r0 eq_refl Hs).
           rewrite H2, H1. split; [lia|].
           intros r Hr Hpr. injection Hr as <-. discriminate Hpr.
        -- split; [exact Hle|]. rewrite Hr0. exact Hproc.
      * simpl. split; [exact Hle|]. rewrite Hr0. exact Hproc.
    + simpl. rewrite update_row_refunds. split; [exact Hle|].
      intros r Hr Hpr. unfold update_row in Hr.
      destruct (jobs w !! job_id job) as [r0|] eqn:Hr0.
      * simpl in Hr. rewrite lookup_insert_eq in Hr. injection Hr as <-. discriminate Hpr.
      * rewrite Hr0 in Hr. discriminate Hr.
  - rewrite length_app. simpl. split; [lia|].
    intros r Hr Hpr. specialize (Hproc r Hr Hpr). lia.
Qed.

(** However the compensations of any number of failure handlers of the
    [index.js] handler interleave on one job, at most one refund is issued:
    the guarded cancel lets only one of them through. *)
Lemma index_v1_refund_at_most_once (job : Job) (es : list ApiError) (w : World)
    (s' : Concurrent.Threads * World) :
  rtc (Concurrent.comp_step job) (Concurrent.mkThreads es 0, w) s' ->
  (length (refunds (snd s')) <= length (refunds w) + 1)%nat.
Proof.
  intros Hrun.
  assert (Hinv : forall s1 s2, rtc (Concurrent.comp_step job) s1 s2 ->
            Concurrent.refund_once_inv job (length (refunds w)) s1 ->
            Concurrent.refund_once_inv job (length (refunds w)) s2).
  { intros s1 s2 H. induction H as [s|s1 s2 s3 Hst _ IH]; [tauto|].
    intros Hi. apply IH. exact (comp_step_inv job _ s1 s2 Hst Hi). }
  assert (H0 : Concurrent.refund_once_inv job (length (refunds w))
                 (Concurrent.mkThreads es 0, w)).
  { unfold Concurrent.refund_once_inv, Concurrent.refunds_committed. simpl.
    split; [lia|]. intros; lia. }
  destruct (Hinv _ _ Hrun H0) as [Hle _].
  unfold Concurrent.refunds_committed in Hle. lia.
Qed.

(** C5 (fails in [part_005]): two overload compensations of the same job
    in [part_005], whose cancel is not guarded by the current status, issue
    two refunds. *)
Lemma part005_double_refund :
  let w0 := world_with "j5" (mkRow job_j5 Processing None None) in
  let w1 := snd (Part005.compensate job_j5 overloaded w0) in
  let w2 := snd (Part005.compensate job_j5 overloaded w1) in
  refunds w2 = [("u1", Some 5); ("u1", Some 5)].
Proof. vm_compute. reflexivity. Qed.

(* ------------------------------------------------------------------ *)
(** ** One terminal write per attempt *)

(** C6: once a job has been claimed (its row is [processing]), one request
    of the first [index.js] handler or of the [part_003] handler performs
    exactly one status write on that job: [completed] when the job handler
    succeeds, and when it fails [cancelled] (first [index.js] handler, a
    503) or [failed] (any other error; every error in [part_003]).  No
    request writes both. *)
Theorem one_terminal_write (header env : option string) (claim : RpcReply) (gen : Handler)
    (w : World) (job : Job) (r : Row) :
  rpc_data claim = Some job -> jobs w !! job_id job = Some r -> status r = Processing ->
  (rpc_error claim = None ->
   (forall res, fst (IndexV1.execute gen job w) = Resolve res ->
      status_writes (snd (IndexV1.process claim gen w))
      = status_writes w ++ [(job_id job, Completed)]) /\
   (forall e, fst (IndexV1.execute gen job w) = Reject e ->
      status_writes (snd (IndexV1.process claim gen w))
      = status_writes w ++
        [(job_id job, if status_is (status_of e) 503 then Cancelled else Failed)])) /\
  (secret_mismatch header env = false ->
   (forall res, fst (Part003.execute gen job w) = Resolve res ->
      status_writes (snd (Part003.process header env claim gen w))
      = status_writes w ++ [(job_id job, Completed)]) /\
   (forall e, fst (Part003.execute gen job w) = Reject e ->
      status_writes (snd (Part003.process header env claim gen w))
      = status_writes w ++ [(job_id job, Failed)])).
Proof.
  intros Hdata Hr Hp. split.
  - intros Herr.
    destruct (IndexV1_execute_store gen job w) as (Hj & _ & Hsw).
    unfold IndexV1.process. rewrite Herr, Hdata.
    destruct (IndexV1.execute gen job w) as [o w1] eqn:E. simpl in *.
    rewrite <- Hj in Hr. split.
    + intros res Ho. subst o.
      destruct (update_row_found (job_id job) (completed_patch res) w1 r Hr) as (_ & _ & H3).
      cbn [snd]. rewrite H3, Hsw. reflexivity.
    + intros e Ho. subst o. unfold IndexV1.compensate.
      destruct (status_is (status_of e) 503).
      * unfold update_row_if. rewrite Hr, Hp. simpl.
        destruct (update_row_found (job_id job) cancelled_patch w1 r Hr) as (_ & _ & H3).
        cbn [snd]. rewrite H3, Hsw. reflexivity.
      * destruct (update_row_found (job_id job) (failed_patch (js_string_of_err e)) w1 r Hr)
          as (_ & _ & H3).
        simpl. rewrite H3, Hsw. reflexivity.
  - intros Hs.
    destruct (Part003_execute_store gen job w) as (Hj & _ & Hsw).
    unfold Part003.process. rewrite Hs, Hdata.
    destruct (Part003.execute gen job w) as [o w1] eqn:E. simpl in *.
    rewrite <- Hj in Hr. split.
    + intros res Ho. subst o.
      destruct (update_row_found (job_id job) (completed_patch res) w1 r Hr) as (_ & _ & H3).
      cbn [snd]. rewrite H3, Hsw. reflexivity.
    + intros e Ho. subst o.
      destruct (update_row_found (job_id job) (failed_patch (err_message e)) w1 r Hr)
        as (_ & _ & H3).
      cbn [snd]. rewrite H3, Hsw. reflexivity.
Qed.

Lemma one_terminal_write_witness :
  let w := world_with "j3" (row_j3 Processing) in
  let claim := mkReply (Some job_j3) None in
  status_writes (snd (IndexV1.process claim gen_overloaded w)) = [("j3", Cancelled)] /\
  status_writes (snd (IndexV1.process claim (fun _ => Reject bad_request) w)) = [("j3", Failed)] /\
  status_writes (snd (Part003.process (Some "k") (Some "k") claim gen_ok w)) = [("j3", Completed)].
Proof.
  intros w claim. split; [|split].
  - destruct (one_terminal_write (Some "k") (Some "k") claim gen_overloaded w job_j3
                (row_j3 Processing) eq_refl eq_refl eq_refl) as [H1 _].
    apply (proj2 (H1 eq_refl) overloaded). reflexivity.
  - destruct (one_terminal_write (Some "k") (Some "k") claim (fun _ => Reject bad_request) w job_j3
                (row_j3 Processing) eq_refl eq_refl eq_refl) as [H1 _].
    apply (proj2 (H1 eq_refl) bad_request). reflexivity.
  - destruct (one_terminal_write (Some "k") (Some "k") claim gen_ok w job_j3
                (row_j3 Processing) eq_refl eq_refl eq_refl) as [_ H2].
    apply (proj1 (H2 eq_refl) "https://store/x.png"). reflexivity.
Defined.

(* ------------------------------------------------------------------ *)
(** ** Push mode *)

Lemma Part004_dispatch_store (gen : Handler) (job : Job) (w : World) :
  let w1 := snd (Part004.dispatch gen job w) in
  jobs w1 = jobs w /\ refunds w1 = refunds w /\ status_writes w1 = status_writes w.
Proof. unfold Part004.dispatch. execute_store. Qed.

Lemma Part006_dispatch_store (gen : Handler) (job : Job) (w : World) :
  let w1 := snd (Part006.dispatch gen job w) in
  jobs w1 = jobs w /\ refunds w1 = refunds w /\ status_writes w1 = status_writes w.
Proof. unfold Part006.dispatch. execute_store. Qed.

Lemma update_row_handler_calls (id : string) (p : Patch) (w : World) :
  handler_calls (update_row id p w) = handler_calls w.
Proof. unfold update_row. destruct (jobs w !! id); reflexivity. Qed.

(** C7 (counterexample): in push mode ([part_004]) a request for a job
    that is already [completed] runs its handler again and rewrites its
    status. *)
Lemma push_reruns_completed_job :
  let w := snd (Part004.process "j3" gen_ok (world_with "j3" (row_j3 Completed))) in
  handler_calls w = 1%nat /\ status_writes w = [("j3", Processing); ("j3", Completed)].
Proof. vm_compute. split; reflexivity. Qed.

(** The steps after the row has been found, shared by both push handlers. *)
Lemma push_after_lookup (dispatch : Handler -> Job -> World -> Attempt string * World)
    (id : string) (gen : Handler) (w : World) (row : Row) :
  (forall job w', let w1 := snd (dispatch gen job w') in
     jobs w1 = jobs w' /\ refunds w1 = refunds w' /\ status_writes w1 = status_writes w') ->
  jobs w !! id = Some row ->
  let w' := snd (let w1 := update_row id processing_patch w in
                 let '(outcome, w2) := dispatch gen (row_job row) w1 in
                 match outcome with
                 | Resolve result => (200, update_row id (completed_patch result) w2)
                 | Reject e => (500, update_row id (failed_patch (js_string_of_err e)) w2)
                 end) in
  refunds w' = refunds w /\
  handler_calls w' = handler_calls (snd (dispatch gen (row_job row)
                                           (update_row id processing_patch w))) /\
  exists s, (s = Completed \/ s = Failed) /\
    status_writes w' = status_writes w ++ [(id, Processing); (id, s)] /\
    option_map status (jobs w' !! id) = Some s.
Proof.
  intros Hd Hr. cbv zeta.
  destruct (update_row_found id processing_patch w row Hr) as (H1 & H2 & H3).
  destruct (Hd (row_job row) (update_row id processing_patch w)) as (Hj & Hrf & Hsw).
  destruct (dispatch gen (row_job row) (update_row id processing_patch w)) as [o w2] eqn:E.
  simpl in Hj, Hrf, Hsw. rewrite <- Hj in H1.
  destruct o as [res|e]; cbv zeta; cbn [snd].
  - destruct (update_row_found id (completed_patch res) w2 _ H1) as (G1 & G2 & G3).
    split_and!; [rewrite G2, Hrf, H2; reflexivity | apply update_row_handler_calls |].
    exists Completed. split_and!; [left; reflexivity | | rewrite G1; reflexivity].
    rewrite G3, Hsw, H3, <- app_assoc. reflexivity.
  - destruct (update_row_found id (failed_patch (js_string_of_err e)) w2 _ H1) as (G1 & G2 & G3).
    split_and!; [rewrite G2, Hrf, H2; reflexivity | apply update_row_handler_calls |].
    exists Failed. split_and!; [right; reflexivity | | rewrite G1; reflexivity].
    rewrite G3, Hsw, H3, <- app_assoc. reflexivity.
Qed.

(** C7 (amended): in push mode ([part_004], [part_006]) a request naming
    an existing job runs it again whatever its status, terminal ones
    included: the row is set to [processing], the handler runs for a
    supported type (["generate-image"], ["generate-video"] and
    ["analyze-material"] in [part_004], ["generate-image"] in [part_006]),
    and the row ends [completed] or [failed], which is also the last status
    written; no refund or other credit operation is issued. *)
Theorem push_reruns_any_job (id : string) (gen : Handler) (w : World) (row : Row) :
  id <> "" -> jobs w !! id = Some row ->
  let w4 := snd (Part004.process id gen w) in
  let w6 := snd (Part006.process id gen w) in
  refunds w4 = refunds w /\ refunds w6 = refunds w /\
  (exists s, (s = Completed \/ s = Failed) /\
     status_writes w4 = status_writes w ++ [(id, Processing); (id, s)] /\
     option_map status (jobs w4 !! id) = Some s) /\
  (exists s, (s = Completed \/ s = Failed) /\
     status_writes w6 = status_writes w ++ [(id, Processing); (id, s)] /\
     option_map status (jobs w6 !! id) = Some s) /\
  (job_type (row_job row) = "generate-image" \/ job_type (row_job row) = "generate-video" \/
   job_type (row_job row) = "analyze-material" ->
   handler_calls w4 = S (handler_calls w)) /\
  (job_type (row_job row) = "generate-image" -> handler_calls w6 = S (handler_calls w)).
Proof.
  intros Hid Hr w4 w6.
  assert (Hb : String.eqb id "" = false) by (apply String.eqb_neq; exact Hid).
  destruct (push_after_lookup Part004.dispatch id gen w row (Part004_dispatch_store gen) Hr)
    as (A1 & A2 & A3).
  destruct (push_after_lookup Part006.dispatch id gen w row (Part006_dispatch_store gen) Hr)
    as (B1 & B2 & B3).
  assert (E4 : w4 = snd (let w1 := update_row id processing_patch w in
                 let '(outcome, w2) := Part004.dispatch gen (row_job row) w1 in
                 match outcome with
                 | Resolve result => (200, update_row id (completed_patch result) w2)
                 | Reject e => (500, update_row id (failed_patch (js_string_of_err e)) w2)
                 end)).
  { subst w4. unfold Part004.process. rewrite Hb, Hr. reflexivity. }
  assert (E6 : w6 = snd (let w1 := update_row id processing_patch w in
                 let '(outcome, w2) := Part006.dispatch gen (row_job row) w1 in
                 match outcome with
                 | Resolve result => (200, update_row id (completed_patch result) w2)
                 | Reject e => (500, update_row id (failed_patch (js_string_of_err e)) w2)
                 end)).
  { subst w6. unfold Part006.process. rewrite Hb, Hr. reflexivity. }
  rewrite <- E4 in A1, A2, A3. rewrite <- E6 in B1, B2, B3.
  split_and!; [exact A1 | exact B1 | exact A3 | exact B3 | |].
  - intros Ht. rewrite A2. unfold Part004.dispatch.
    destruct Ht as [Ht|[Ht|Ht]]; rewrite Ht; simpl;
      rewrite update_row_handler_calls; reflexivity.
  - intros Ht. rewrite B2. unfold Part006.dispatch. rewrite Ht. simpl.
    rewrite update_row_handler_calls. reflexivity.
Qed.

Lemma push_reruns_any_job_witness :
  let w := world_with "j2" (mkRow job_j2 Failed None None) in
  let w4 := snd (Part004.process "j2" gen_ok w) in
  let w6 := snd (Part006.process "j2" gen_ok w) in
  refunds w4 = [] /\ refunds w6 = [] /\
  (exists s, (s = Completed \/ s = Failed) /\
     status_writes w4 = [("j2", Processing); ("j2", s)] /\
     option_map status (jobs w4 !! "j2") = Some s) /\
  (exists s, (s = Completed \/ s = Failed) /\
     status_writes w6 = [("j2", Processing); ("j2", s)] /\
     option_map status (jobs w6 !! "j2") = Some s) /\
  handler_calls w4 = 1%nat.
Proof.
  intros w w4 w6.
  assert (Hid : "j2" <> "") by discriminate.
  destruct (push_reruns_any_job "j2" gen_ok w (mkRow job_j2 Failed None None) Hid eq_refl)
    as (H1 & H2 & H3 & H4 & H5 & _).
  split_and!; [exact H1 | exact H2 | exact H3 | exact H4 |].
  apply H5. right; left; reflexivity.
Defined.

(** C10: in push mode ([part_004], [part_006]) a request whose [job_id]
    names no row is answered 404 and changes nothing: no status update, no
    handler call, no refund. *)
Theorem push_unknown_job_404 (id : string) (gen : Handler) (w : World) :
  id <> "" -> jobs w !! id = None ->
  Part004.process id gen w = (404, w) /\ Part006.process id gen w = (404, w).
Proof.
  intros Hid Hr.
  assert (Hb : String.eqb id "" = false) by (apply String.eqb_neq; exact Hid).
  unfold Part004.process, Part006.process. rewrite Hb, Hr. split; reflexivity.
Qed.

Lemma push_unknown_job_404_witness :
  Part004.process "j9" gen_ok (world_with "j3" (row_j3 Pending))
  = (404, world_with "j3" (row_j3 Pending)) /\
  Part006.process "j9" gen_ok (world_with "j3" (row_j3 Pending))
  = (404, world_with "j3" (row_j3 Pending)).
Proof.
  assert (Hid : "j9" <> "") by discriminate.
  exact (push_unknown_job_404 "j9" gen_ok (world_with "j3" (row_j3 Pending)) Hid eq_refl).
Defined.

(* ------------------------------------------------------------------ *)
(** ** Claim step *)

(** The first [index.js] handler tells an empty queue (204) from a failed
    claim (500); neither touches the store. *)
Lemma index_v1_claim_outcomes (gen : Handler) (w : World) (msg : string) (d : option Job) :
  IndexV1.process (mkReply None None) gen w = (204, w) /\
  IndexV1.process (mkReply d (Some msg)) gen w = (500, w).
Proof. split; reflexivity. Qed.

(** C8 (fails in [part_003]): the [part_003] handler does not read the
    claim's [error]: a failed claim ([data: null]) is answered 204 like an
    empty queue, and the failure is swallowed. *)
Lemma part003_claim_error_swallowed (gen : Handler) (w : World) :
  Part003.process (Some "k") (Some "k") (mkReply None (Some "fetch failed")) gen w = (204, w).
Proof. reflexivity. Qed.

(* ------------------------------------------------------------------ *)
(** ** String helpers *)

(** Normalising a model name twice changes nothing. *)
Lemma normalize_model_idempotent (m : string) :
  normalize_model (normalize_model m) = normalize_model m.
Proof.
  unfold normalize_model at 2 3.
  destruct (includes m "nano" && includes m "pro") eqn:E1; [reflexivity|].
  destruct (includes m "flash" || includes m "elite") eqn:E2; [reflexivity|].
  unfold normalize_model. rewrite E1, E2. reflexivity.
Qed.

(** After normalisation a model counts as pro exactly when its name has
    both "nano" and "pro", or has "pro" but neither "flash" nor "elite". *)
Lemma is_pro_model_spec (m : string) :
  is_pro_model m =
  (includes m "nano" && includes m "pro") ||
  (negb (includes m "flash" || includes m "elite") && includes m "pro").
Proof.
  unfold is_pro_model, normalize_model.
  destruct (includes m "nano" && includes m "pro"); [reflexivity|].
  destruct (includes m "flash" || includes m "elite"); reflexivity.
Qed.

(** The size sent for a pro model is always 1K, 2K or 4K. *)
Lemma image_size_v1_valid (x : option string) : valid_size (image_size_v1 x) = true.
Proof.
  unfold image_size_v1.
  destruct (valid_size (requested_size x)) eqn:E; [exact E | reflexivity].
Qed.

Lemma ascii_upper_idem (c : Ascii.ascii) : ascii_upper (ascii_upper c) = ascii_upper c.
Proof. destruct c as [[] [] [] [] [] [] [] []]; reflexivity. Qed.

Lemma to_upper_idem (s : string) : to_upper (to_upper s) = to_upper s.
Proof. induction s as [|c s IH]; [reflexivity|]. cbn. rewrite ascii_upper_idem, IH. reflexivity. Qed.

Lemma requested_size_upper (s : string) :
  requested_size (Some (to_upper s)) = requested_size (Some s).
Proof.
  destruct s as [|c s]; [reflexivity|].
  unfold requested_size. cbn [truthy_str to_upper default id].
  change (String.eqb (String (ascii_upper c) (to_upper s)) "") with false.
  change (String.eqb (String c s) "") with false.
  cbn [negb]. change (String (ascii_upper c) (to_upper s)) with (to_upper (String c s)).
  apply to_upper_idem.
Qed.

Lemma valid_size_cases (t : string) :
  valid_size t = true -> t = "1K" \/ t = "2K" \/ t = "4K".
Proof.
  unfold valid_size. intros H.
  apply orb_true_iff in H as [H|H]; [apply orb_true_iff in H as [H|H]|].
  - left. apply String.eqb_eq, H.
  - right; left. apply String.eqb_eq, H.
  - right; right. apply String.eqb_eq, H.
Qed.

(** The requested size is read without regard to letter case in both the
    [part_001]/[part_003] and the [part_005] versions, and the size
    [part_001] sends, asked for again, is sent unchanged. *)
Theorem image_size_case_insensitive (s : string) (x : option string) :
  image_size_v1 (Some (to_upper s)) = image_size_v1 (Some s) /\
  image_size_v5 (Some (to_upper s)) = image_size_v5 (Some s) /\
  image_size_v1 (Some (image_size_v1 x)) = image_size_v1 x.
Proof.
  split; [|split].
  - unfold image_size_v1. rewrite requested_size_upper. reflexivity.
  - unfold image_size_v5. rewrite requested_size_upper. reflexivity.
  - pose proof (image_size_v1_valid x) as H.
    apply valid_size_cases in H as [H|[H|H]]; rewrite H; reflexivity.
Qed.

(** [part_001] sets [imageConfig.imageSize] exactly when the normalised model
    counts as pro: when the requested name has "nano" and "pro", or "pro"
    without "flash" or "elite"; the size it then sends is 1K, 2K or 4K. *)
Theorem gen_config_v1_size (m : string) (aspect size : option string) :
  gc_size (gen_config_v1 m aspect size) =
  (if (includes m "nano" && includes m "pro") ||
      (negb (includes m "flash" || includes m "elite") && includes m "pro")
   then Some (image_size_v1 size) else None) /\
  (forall t, gc_size (gen_config_v1 m aspect size) = Some t -> valid_size t = true).
Proof.
  assert (E : gc_size (gen_config_v1 m aspect size) =
    if is_pro_model m then Some (image_size_v1 size) else None) by reflexivity.
  split.
  - rewrite E, is_pro_model_spec. reflexivity.
  - intros t Ht. rewrite E in Ht. destruct (is_pro_model m); [|discriminate].
    injection Ht as <-. apply image_size_v1_valid.
Qed.

Lemma gen_config_v1_size_witness :
  gc_size (gen_config_v1 "nano-banana-pro" None (Some "2k")) = Some "2K" /\
  gc_size (gen_config_v1 "flash-pro" None (Some "2k")) = None.
Proof.
  split.
  - destruct (gen_config_v1_size "nano-banana-pro" None (Some "2k")) as [H _].
    rewrite H. reflexivity.
  - destruct (gen_config_v1_size "flash-pro" None (Some "2k")) as [H _].
    rewrite H. reflexivity.
Defined.

(** For a requested name with "pro" and neither "flash" nor "elite", both
    [part_001] and [part_005] set a size; they agree when the requested
    size is valid (up to letter case), and also send 1K when none or an
    empty one is given; an invalid size makes [part_001] send 1K while
    [part_005] leaves [imageSize] unset. *)
Theorem gen_config_v5_vs_v1 (m : string) (aspect size : option string)
  (Hpro : includes m "pro" = true)
  (Hflash : (includes m "flash" || includes m "elite") = false) :
  gc_size (gen_config_v1 m aspect size) = Some (image_size_v1 size) /\
  (valid_size (requested_size size) = true ->
     gc_size (gen_config_v5 m aspect size) = gc_size (gen_config_v1 m aspect size)) /\
  (truthy_str size = false ->
     gc_size (gen_config_v5 m aspect size) = Some "1K" /\
     gc_size (gen_config_v1 m aspect size) = Some "1K") /\
  (valid_size (requested_size size) = false ->
     gc_size (gen_config_v5 m aspect size) = None /\
     gc_size (gen_config_v1 m aspect size) = Some "1K").
Proof.
  assert (E1 : gc_size (gen_config_v1 m aspect size) = Some (image_size_v1 size)).
  { change (gc_size (gen_config_v1 m aspect size)) with
      (if is_pro_model m then Some (image_size_v1 size) else None).
    rewrite is_pro_model_spec, Hflash, Hpro, orb_true_r. reflexivity. }
  assert (E5 : gc_size (gen_config_v5 m aspect size) = image_size_v5 size).
  { change (gc_size (gen_config_v5 m aspect size)) with
      (if includes m "pro" then image_size_v5 size else None).
    rewrite Hpro. reflexivity. }
  rewrite E1, E5. unfold image_size_v1, image_size_v5.
  split; [reflexivity|]. split; [|split].
  - intros H. rewrite H. reflexivity.
  - intros H. unfold requested_size. rewrite H. split; reflexivity.
  - intros H. rewrite H. split; reflexivity.
Qed.

Lemma gen_config_v5_vs_v1_witness :
  gc_size (gen_config_v5 "nano-banana-pro" None (Some "8k")) = None /\
  gc_size (gen_config_v1 "nano-banana-pro" None (Some "8k")) = Some "1K".
Proof.
  apply (gen_config_v5_vs_v1 "nano-banana-pro" None (Some "8k")); reflexivity.
Defined.

Lemma string_app_cons (c : Ascii.ascii) (a b : string) :
  (String c a ++ b)%string = String c (a ++ b).
Proof. reflexivity. Qed.

Lemma split_slash_no_slash (a : string) :
  includes a "/" = false -> split_slash a = [a].
Proof.
  induction a as [|c a IH]; [reflexivity|].
  cbn [includes starts_with]. intros H.
  apply orb_false_iff in H as [H1 H2].
  rewrite andb_true_r in H1.
  cbn [split_slash]. rewrite (IH H2).
  destruct (Ascii.eqb c "/"%char) eqn:E; [|reflexivity].
  apply Ascii.eqb_eq in E. subst c. discriminate H1.
Qed.

Lemma split_slash_app (a b : string) :
  includes a "/" = false -> split_slash (a ++ String "/"%char b) = a :: split_slash b.
Proof.
  induction a as [|c a IH]; [reflexivity|].
  cbn [includes starts_with]. intros H.
  apply orb_false_iff in H as [H1 H2].
  rewrite andb_true_r in H1.
  rewrite string_app_cons. cbn [split_slash]. rewrite (IH H2).
  destruct (Ascii.eqb c "/"%char) eqn:E; [|reflexivity].
  apply Ascii.eqb_eq in E. subst c. discriminate H1.
Qed.

(** For a MIME type [type/subtype] the extension is the subtype. *)
Lemma extension_of_subtype (a b : string)
    (Ha : includes a "/" = false) (Hb : includes b "/" = false) (Hne : b <> "") :
  extension_of (a ++ "/" ++ b) = b.
Proof.
  unfold extension_of. change ("/" ++ b)%string with (String "/"%char b).
  rewrite (split_slash_app a b Ha), (split_slash_no_slash b Hb).
  cbn [nth_error]. apply String.eqb_neq in Hne. rewrite Hne. reflexivity.
Qed.

Lemma extension_of_subtype_witness :
  extension_of ("image" ++ "/" ++ "jpeg") = "jpeg".
Proof. apply (extension_of_subtype "image" "jpeg"); [reflexivity | reflexivity | discriminate]. Defined.

(* ------------------------------------------------------------------ *)
(** ** Data URLs and request parts *)

Lemma strip_prefix_app (p s : string) : strip_prefix p (p ++ s) = Some s.
Proof.
  induction p as [|c p IH]; [reflexivity|].
  rewrite string_app_cons. cbn [strip_prefix]. rewrite Ascii.eqb_refl. exact IH.
Qed.

Lemma strip_prefix_some (p s r : string) : strip_prefix p s = Some r -> s = (p ++ r)%string.
Proof.
  revert s. induction p as [|c p IH]; intros s H.
  - injection H as <-. reflexivity.
  - destruct s as [|d s]; [discriminate|].
    cbn [strip_prefix] in H.
    destruct (Ascii.eqb c d) eqn:E; [|discriminate].
    apply Ascii.eqb_eq in E. subst d. rewrite string_app_cons. f_equal. apply IH, H.
Qed.

Lemma span_word_app (w t : string) :
  all_word w = true -> span_word (w ++ ";base64," ++ t) = (w, (";base64," ++ t)%string).
Proof.
  induction w as [|c w IH]; [reflexivity|].
  cbn [all_word]. intros H. apply andb_true_iff in H as [Hc Hw].
  rewrite string_app_cons. cbn [span_word]. rewrite Hc, (IH Hw). reflexivity.
Qed.

Lemma span_word_split (s w r : string) : span_word s = (w, r) -> s = (w ++ r)%string.
Proof.
  revert w r. induction s as [|c s IH]; intros w r H.
  - injection H as <- <-. reflexivity.
  - cbn [span_word] in H. destruct (is_word c).
    + destruct (span_word s) as [w' r'] eqn:E. injection H as <- <-.
      rewrite string_app_cons. f_equal. apply IH. reflexivity.
    + injection H as <- <-. reflexivity.
Qed.

(** A data URL built from a non-empty word subtype and non-empty one-line
    data is parsed back into its MIME type and data. *)
Lemma match_data_url_round_trip (w d : string)
    (Hw : all_word w = true) (Hwne : w <> "") (Hd : d <> "")
    (Hl : no_line_terminator d = true) :
  match_data_url ("data:image/" ++ w ++ ";base64," ++ d) = Some (("image/" ++ w)%string, d).
Proof.
  unfold match_data_url. rewrite strip_prefix_app, (span_word_app w d Hw).
  apply String.eqb_neq in Hwne. rewrite Hwne, strip_prefix_app.
  apply String.eqb_neq in Hd. rewrite Hd, Hl. reflexivity.
Qed.

Lemma match_data_url_round_trip_witness :
  match_data_url ("data:image/" ++ "png" ++ ";base64," ++ "QUJD") = Some (("image/" ++ "png")%string, "QUJD").
Proof.
  apply (match_data_url_round_trip "png" "QUJD");
    [reflexivity | discriminate | discriminate | reflexivity].
Defined.

(** Whatever the matcher accepts is [data:<mime>;base64,<data>] with
    non-empty one-line data. *)
Lemma match_data_url_sound (img m d : string) (H : match_data_url img = Some (m, d)) :
  img = ("data:" ++ m ++ ";base64," ++ d)%string /\ d <> "" /\ no_line_terminator d = true.
Proof.
  unfold match_data_url in H.
  destruct (strip_prefix "data:image/" img) as [r|] eqn:E1; [|discriminate].
  destruct (span_word r) as [w r1] eqn:E2.
  destruct (String.eqb w "") eqn:E3; [discriminate|].
  destruct (strip_prefix ";base64," r1) as [d'|] eqn:E4; [|discriminate].
  destruct (String.eqb d' "") eqn:E5; [discriminate|].
  destruct (no_line_terminator d') eqn:E6; [|discriminate].
  injection H as <- <-.
  apply strip_prefix_some in E1. apply span_word_split in E2. apply strip_prefix_some in E4.
  subst. split; [reflexivity|]. split; [|exact E6].
  apply String.eqb_neq, E5.
Qed.

Lemma match_data_url_sound_witness :
  match_data_url "data:image/png;base64,QUJD" = Some ("image/png", "QUJD") /\
  ("data:image/png;base64,QUJD" = ("data:" ++ "image/png" ++ ";base64," ++ "QUJD")%string /\
   "QUJD" <> "" /\ no_line_terminator "QUJD" = true).
Proof. split; [reflexivity | apply match_data_url_sound; reflexivity]. Defined.

(** Images returned by [part_006] as data URLs, fed back as reference
    images, become inline [image/png] parts after the prompt, in order. *)
Lemma request_parts_of_image_urls (prompt : string) (ds : list string)
    (Hds : Forall (fun d => d <> "" /\ no_line_terminator d = true) ds) :
  request_parts prompt (map image_url_of ds) = TextPart prompt :: map (InlinePart "image/png") ds.
Proof.
  unfold request_parts. f_equal.
  induction Hds as [|d ds [Hd Hl] _ IH]; [reflexivity|].
  cbn [map reference_parts].
  change (image_url_of d) with ("data:image/" ++ "png" ++ ";base64," ++ d)%string.
  rewrite (match_data_url_round_trip "png" d eq_refl ltac:(discriminate) Hd Hl).
  rewrite IH. reflexivity.
Qed.

Lemma request_parts_of_image_urls_witness :
  request_parts "a chair" (map image_url_of ["QUJD"; "REVG"]) =
  [TextPart "a chair"; InlinePart "image/png" "QUJD"; InlinePart "image/png" "REVG"].
Proof.
  apply (request_parts_of_image_urls "a chair" ["QUJD"; "REVG"]).
  repeat constructor; discriminate.
Defined.

(* ------------------------------------------------------------------ *)
(** ** The image part of a response *)

(** When the [break] loop finds an image, the [find] search finds the
    same data. *)
Lemma extract_break_find (ps : list RespPart) (d : string) (m : option string)
    (H : extract_break ps = Resolve (d, m)) :
  extract_find ps = Some d.
Proof.
  induction ps as [|p ps IH]; [discriminate|].
  unfold extract_break in H. cbn [first_inline] in H. cbn [extract_find].
  destruct (inline_of p) as [x|]; [|apply IH, H].
  destruct (truthy_str (inline_data x)) eqn:E; [|discriminate].
  injection H as <- _.
  destruct (inline_data x) as [s|]; [reflexivity | discriminate].
Qed.

Lemma extract_break_find_witness :
  extract_break [mkRespPart None; mkRespPart (Some (mkInline (Some "image/png") (Some "QUJD")))]
    = Resolve ("QUJD", Some "image/png") /\
  extract_find [mkRespPart None; mkRespPart (Some (mkInline (Some "image/png") (Some "QUJD")))]
    = Some "QUJD".
Proof. split; [reflexivity | apply (extract_break_find _ _ (Some "image/png")); reflexivity]. Defined.

(** An [inlineData] part without data stops the [break] loop, which then
    throws, while the [find] search skips it and goes on with the rest. *)
Lemma extract_break_gives_up (ps1 ps2 : list RespPart) (x : InlineData)
    (H1 : Forall (fun p => inline_of p = None) ps1)
    (Hx : truthy_str (inline_data x) = false) :
  extract_break (ps1 ++ mkRespPart (Some x) :: ps2) = Reject (plain_error "NO_IMAGE_RETURNED") /\
  extract_find (ps1 ++ mkRespPart (Some x) :: ps2) = extract_find ps2.
Proof.
  induction H1 as [|p ps1 Hp _ IH].
  - unfold extract_break. cbn. rewrite Hx. split; reflexivity.
  - destruct IH as [IH1 IH2]. split.
    + unfold extract_break in *. cbn [app first_inline]. rewrite Hp. exact IH1.
    + cbn [app extract_find]. rewrite Hp. exact IH2.
Qed.

Lemma extract_break_gives_up_witness :
  extract_break ([] ++ mkRespPart (Some (mkInline (Some "image/png") None))
                  :: [mkRespPart (Some (mkInline (Some "image/png") (Some "QUJD")))])
    = Reject (plain_error "NO_IMAGE_RETURNED") /\
  extract_find ([] ++ mkRespPart (Some (mkInline (Some "image/png") None))
                  :: [mkRespPart (Some (mkInline (Some "image/png") (Some "QUJD")))])
    = extract_find [mkRespPart (Some (mkInline (Some "image/png") (Some "QUJD")))].
Proof. apply extract_break_gives_up; [constructor | reflexivity]. Defined.

(* ------------------------------------------------------------------ *)
(** ** Endpoints without compensation and with other guards *)

(** In the pull handlers of [part_000], [part_001] (first program) and
    [index.js] (line 271), a failing job is answered 500 and left as it
    was: no status is written and no refund is issued, so the row stays in
    [processing]. *)
Lemma no_compensation_leaves_job (claim : RpcReply) (gen : Handler) (w : World)
    (job : Job) (e : ApiError)
    (Hc : rpc_error claim = None) (Hj : rpc_data claim = Some job)
    (He : fst (IndexV1.execute gen job w) = Reject e) :
  fst (NoCompensation.process claim gen w) = 500 /\
  jobs (snd (NoCompensation.process claim gen w)) = jobs w /\
  refunds (snd (NoCompensation.process claim gen w)) = refunds w /\
  status_writes (snd (NoCompensation.process claim gen w)) = status_writes w.
Proof.
  pose proof (IndexV1_execute_store gen job w) as Hs. cbv zeta in Hs.
  unfold NoCompensation.process. rewrite Hc, Hj.
  destruct (IndexV1.execute gen job w) as [o w1]. cbn [fst snd] in He, Hs |- *.
  subst o. exact (conj eq_refl Hs).
Qed.

Lemma no_compensation_leaves_job_witness :
  let w := world_with "j3" (row_j3 Processing) in
  fst (NoCompensation.process (mkReply (Some job_j3) None) gen_overloaded w) = 500 /\
  jobs (snd (NoCompensation.process (mkReply (Some job_j3) None) gen_overloaded w)) = jobs w /\
  refunds (snd (NoCompensation.process (mkReply (Some job_j3) None) gen_overloaded w)) = refunds w /\
  status_writes (snd (NoCompensation.process (mkReply (Some job_j3) None) gen_overloaded w))
    = status_writes w.
Proof.
  intros w. apply (no_compensation_leaves_job _ _ _ job_j3 overloaded); reflexivity.
Defined.

Lemma secret_mismatch_refl (s : string) : secret_mismatch (Some s) (Some s) = false.
Proof. unfold secret_mismatch. rewrite String.eqb_refl. reflexivity. Qed.

(** With [WORKER_SECRET] unset, the handlers that compare the header with
    [!==] and do not stop at startup without it ([index.js] second
    program, [part_003] first program, [part_002] first program) treat a
    request without the header exactly as one carrying the right secret. *)
Lemma unset_secret_accepts_missing_header (s : string) (claim : RpcReply)
    (body : Part002.Body) (gen : Handler) (w : World) :
  IndexV2.process None None claim gen w = IndexV2.process (Some s) (Some s) claim gen w /\
  Part003.process None None claim gen w = Part003.process (Some s) (Some s) claim gen w /\
  Part002.process None None body gen w = Part002.process (Some s) (Some s) body gen w.
Proof.
  unfold IndexV2.process, Part003.process, Part002.process.
  rewrite !secret_mismatch_refl. split_and!; reflexivity.
Qed.

(** A failing [part_002] push job: answered 500; when the body carries a
    job id, the row is marked failed with the error message and a positive
    [cost] is refunded to the body's user; without a job id nothing is
    written and nothing is refunded. *)
Lemma part002_failure (header env : option string) (b : Part002.Body) (gen : Handler)
    (w : World) (e : ApiError)
    (Hs : secret_mismatch header env = false)
    (Ha : (String.eqb (Part002.b_action b) "generate-image" ||
           String.eqb (Part002.b_action b) "analyze-material") = true)
    (He : gen (Part002.body_job b) = Reject e) :
  let '(code, w') := Part002.process header env b gen w in
  code = 500 /\
  refunds w' = refunds w ++
    (if truthy_str (Part002.b_job_id b) && positive_cost (Part002.b_cost b)
     then [(Part002.b_user_id b, Part002.b_cost b)] else []) /\
  (truthy_str (Part002.b_job_id b) = false ->
     jobs w' = jobs w /\ status_writes w' = status_writes w) /\
  (forall i r, Part002.b_job_id b = Some i -> i <> "" -> jobs w !! i = Some r ->
     jobs w' !! i = Some (apply_patch r (failed_patch (err_message e)))).
Proof.
  unfold Part002.process. rewrite Hs, Ha. cbn [negb]. unfold run_handler. rewrite He.
  destruct (Part002.b_job_id b) as [i|] eqn:Hid; cbn [truthy_str andb].
  - destruct (negb (String.eqb i "")) eqn:Hne.
    + set (w1 := mkWorld (jobs w) (refunds w) (S (handler_calls w)) (status_writes w)).
      cbn [Part002.body_job job_id default cost user_id]. rewrite Hid.
      cbn [default].
      assert (Hrow : forall r, jobs w !! i = Some r ->
                jobs (update_row i (failed_patch (err_message e)) w1) !! i =
                Some (apply_patch r (failed_patch (err_message e)))).
      { intros r Hr. apply (update_row_found i _ w1 r Hr). }
      destruct (positive_cost (Part002.b_cost b)); split_and!.
      * reflexivity.
      * cbn [refunds refund]. rewrite update_row_refunds. reflexivity.
      * discriminate.
      * intros i' r Hi _ Hr. injection Hi as <-. exact (Hrow r Hr).
      * reflexivity.
      * rewrite update_row_refunds, app_nil_r. reflexivity.
      * discriminate.
      * intros i' r Hi _ Hr. injection Hi as <-. exact (Hrow r Hr).
    + apply negb_false_iff, String.eqb_eq in Hne. subst i.
      split_and!; [reflexivity | symmetry; apply app_nil_r | intros _; split; reflexivity |].
      intros i' r Hi Hne' _. injection Hi as <-. contradiction.
  - split_and!; [reflexivity | symmetry; apply app_nil_r | intros _; split; reflexivity |].
    intros i r Hi. discriminate Hi.
Qed.

Lemma part002_failure_witness :
  let b := Part002.mkBody (Some "j2") "generate-video" "u1" (Some 5) in
  let b' := Part002.mkBody (Some "j2") "generate-image" "u1" (Some 5) in
  let w := world_with "j2" (mkRow job_j2 Processing None None) in
  Part002.process (Some "k") (Some "k") b gen_overloaded w = (400, w) /\
  (let '(code, w') := Part002.process (Some "k") (Some "k") b' gen_overloaded w in
   code = 500 /\
   refunds w' = refunds w ++
     (if truthy_str (Part002.b_job_id b') && positive_cost (Part002.b_cost b')
      then [(Part002.b_user_id b', Part002.b_cost b')] else []) /\
   (truthy_str (Part002.b_job_id b') = false ->
      jobs w' = jobs w /\ status_writes w' = status_writes w) /\
   (forall i r, Part002.b_job_id b' = Some i -> i <> "" -> jobs w !! i = Some r ->
      jobs w' !! i = Some (apply_patch r (failed_patch (err_message overloaded))))).
Proof.
  intros b b' w. split; [reflexivity|].
  apply part002_failure; reflexivity.
Defined.

(* ------------------------------------------------------------------ *)
(** ** More on the retry helpers *)

Lemma retry_v2_loop_success {A} (fn : nat -> Attempt A) (maxR : nat) (bd : Z)
    (jitter : nat -> Z) (k : nat) (v : A) :
  (k < maxR)%nat ->
  (forall i, (i < k)%nat -> exists e, fn i = Reject e /\ RetryV2.retryable (err_status e) = true) ->
  fn k = Resolve v ->
  forall n i fuel, (i + fuel = maxR)%nat -> (i + n = k)%nat ->
  RetryV2.loop fn maxR bd jitter i fuel =
  mkRun (Returned (Some v)) (S n) (map (backoff bd jitter) (seq i n)).
Proof.
  intros Hk Hfail Hok n. induction n as [|n IH]; intros i fuel Hf Hn.
  - destruct fuel as [|fuel]; [lia|]. cbn [RetryV2.loop].
    replace i with k by lia. rewrite Hok. reflexivity.
  - destruct fuel as [|fuel]; [lia|]. cbn [RetryV2.loop].
    destruct (Hfail i ltac:(lia)) as (e & He & Hr). rewrite He.
    replace (Nat.eqb i (maxR - 1)) with false by (symmetry; apply Nat.eqb_neq; lia).
    rewrite Hr. rewrite (IH (S i) fuel ltac:(lia) ltac:(lia)). reflexivity.
Qed.

(** [index.js] helper: an operation that fails [k] times with a retryable
    status and then succeeds, within the attempt budget, yields its value
    after [k + 1] calls and [k] exponential sleeps. *)
Theorem retry_v2_transient_then_success {A} (fn : nat -> Attempt A) (maxR : nat) (bd : Z)
    (jitter : nat -> Z) (k : nat) (v : A)
    (Hk : (k < maxR)%nat)
    (Hfail : forall i, (i < k)%nat ->
               exists e, fn i = Reject e /\ RetryV2.retryable (err_status e) = true)
    (Hok : fn k = Resolve v) :
  RetryV2.callGeminiWithRetry_with fn maxR bd jitter =
  mkRun (Returned (Some v)) (S k) (map (backoff bd jitter) (seq 0 k)).
Proof.
  unfold RetryV2.callGeminiWithRetry_with.
  apply (retry_v2_loop_success fn maxR bd jitter k v Hk Hfail Hok); lia.
Qed.

Lemma retry_v2_transient_then_success_witness :
  RetryV2.callGeminiWithRetry_with
    (fun i => if Nat.eqb i 2 then Resolve tt else Reject overloaded) 3 2000 no_jitter =
  mkRun (Returned (Some tt)) 3 (map (backoff 2000 no_jitter) (seq 0 2)).
Proof.
  apply (retry_v2_transient_then_success _ 3 2000 no_jitter 2 tt).
  - lia.
  - intros i Hi. exists overloaded. split; [|reflexivity].
    destruct i as [|[|i]]; [reflexivity | reflexivity | lia].
  - reflexivity.
Defined.

Lemma retry_v3_loop_success {A} (fn : nat -> Attempt A) (bd : Z)
    (jitter : nat -> Z) (k : nat) (v : A) :
  (forall i, (i < k)%nat -> exists e, fn i = Reject e /\ RetryV3.retryable (err_status e) = true) ->
  fn k = Resolve v ->
  forall n i fuel, (n < fuel)%nat -> (i + n = k)%nat ->
  RetryV3.loop fn bd jitter i fuel =
  mkRun (Returned (Some v)) (S n) (map (backoff bd jitter) (seq i n)).
Proof.
  intros Hfail Hok n. induction n as [|n IH]; intros i fuel Hf Hn.
  - destruct fuel as [|fuel]; [lia|]. cbn [RetryV3.loop].
    replace i with k by lia. rewrite Hok. reflexivity.
  - destruct fuel as [|fuel]; [lia|]. cbn [RetryV3.loop].
    destruct (Hfail i ltac:(lia)) as (e & He & Hr). rewrite He, Hr.
    rewrite (IH (S i) fuel ltac:(lia) ltac:(lia)). reflexivity.
Qed.

(** [part_003] helper: the same for its own retryable statuses (503, 429). *)
Theorem retry_v3_transient_then_success {A} (fn : nat -> Attempt A) (maxR : nat) (bd : Z)
    (jitter : nat -> Z) (k : nat) (v : A)
    (Hk : (k < maxR)%nat)
    (Hfail : forall i, (i < k)%nat ->
               exists e, fn i = Reject e /\ RetryV3.retryable (err_status e) = true)
    (Hok : fn k = Resolve v) :
  RetryV3.callGeminiWithRetry_with fn maxR bd jitter =
  mkRun (Returned (Some v)) (S k) (map (backoff bd jitter) (seq 0 k)).
Proof.
  unfold RetryV3.callGeminiWithRetry_with.
  apply (retry_v3_loop_success fn bd jitter k v Hfail Hok); lia.
Qed.

Lemma retry_v3_transient_then_success_witness :
  RetryV3.callGeminiWithRetry_with
    (fun i => if Nat.eqb i 4 then Resolve tt else Reject rate_limited) 6 5000 no_jitter =
  mkRun (Returned (Some tt)) 5 (map (backoff 5000 no_jitter) (seq 0 4)).
Proof.
  apply (retry_v3_transient_then_success _ 6 5000 no_jitter 4 tt).
  - lia.
  - intros i Hi. exists rate_limited. split; [|reflexivity].
    destruct i as [|[|[|[|i]]]]; [reflexivity.. | lia].
  - reflexivity.
Defined.

Lemma retry_v2_loop_counts {A} (fn : nat -> Attempt A) (maxR : nat) (bd : Z)
    (jitter : nat -> Z) :
  forall fuel i, (1 <= fuel)%nat -> (i + fuel = maxR)%nat ->
  let r := RetryV2.loop fn maxR bd jitter i fuel in
  (length (sleeps r) + 1 = invocations r /\ invocations r <= fuel)%nat.
Proof.
  induction fuel as [|fuel IH]; intros i H1 Hf; [lia|]. cbn zeta. cbn [RetryV2.loop].
  destruct (fn i) as [v|e]; [cbn; lia|].
  destruct (Nat.eqb i (maxR - 1)) eqn:Hl; [cbn; lia|].
  apply Nat.eqb_neq in Hl.
  destruct (RetryV2.retryable (err_status e)); [|cbn; lia].
  destruct fuel as [|fuel']; [lia|].
  destruct (IH (S i) ltac:(lia) ltac:(lia)) as [Ha Hb].
  cbn [sleeps invocations length]. lia.
Qed.

Lemma retry_v3_loop_exhausted {A} (fn : nat -> Attempt A) (bd : Z) (jitter : nat -> Z) :
  forall fuel i, ret (RetryV3.loop fn bd jitter i fuel) = Returned None ->
  length (sleeps (RetryV3.loop fn bd jitter i fuel)) = fuel /\
  invocations (RetryV3.loop fn bd jitter i fuel) = fuel.
Proof.
  induction fuel as [|fuel IH]; intros i H; [split; reflexivity|].
  cbn [RetryV3.loop] in H |- *.
  destruct (fn i) as [v|e]; [discriminate|].
  destruct (RetryV3.retryable (err_status e)); [|discriminate].
  cbn [ret] in H. destruct (IH (S i) H) as [Ha Hb].
  cbn [sleeps invocations length]. rewrite Ha, Hb. split; reflexivity.
Qed.

(** The [index.js] helper sleeps only between attempts (one sleep fewer
    than calls, at most [maxRetries] calls); the [part_003] helper, when
    its attempts run out, has slept after every call, the last one
    included. *)
Theorem retry_sleep_counts {A} (fn : nat -> Attempt A) (maxR : nat) (bd : Z)
    (jitter : nat -> Z) (Hm : (1 <= maxR)%nat) :
  let r2 := RetryV2.callGeminiWithRetry_with fn maxR bd jitter in
  let r3 := RetryV3.callGeminiWithRetry_with fn maxR bd jitter in
  (length (sleeps r2) + 1 = invocations r2 /\ invocations r2 <= maxR)%nat /\
  (ret r3 = Returned None -> length (sleeps r3) = maxR /\ invocations r3 = maxR).
Proof.
  cbv zeta. unfold RetryV2.callGeminiWithRetry_with, RetryV3.callGeminiWithRetry_with.
  split.
  - exact (retry_v2_loop_counts fn maxR bd jitter maxR 0 Hm eq_refl).
  - apply retry_v3_loop_exhausted.
Qed.

Lemma retry_sleep_counts_witness :
  (length (sleeps (RetryV2.callGeminiWithRetry_with always_overloaded 3 2000 no_jitter)) + 1 =
     invocations (RetryV2.callGeminiWithRetry_with always_overloaded 3 2000 no_jitter) /\
   invocations (RetryV2.callGeminiWithRetry_with always_overloaded 3 2000 no_jitter) <= 3)%nat /\
  (ret (RetryV3.callGeminiWithRetry_with always_overloaded 3 2000 no_jitter) = Returned None ->
   length (sleeps (RetryV3.callGeminiWithRetry_with always_overloaded 3 2000 no_jitter)) = 3%nat /\
   invocations (RetryV3.callGeminiWithRetry_with always_overloaded 3 2000 no_jitter) = 3%nat).
Proof. apply (retry_sleep_counts always_overloaded 3 2000 no_jitter). lia. Defined.

(** With a base delay of at least 2000 ms and a jitter in [0, 2000), each
    backoff sleep is strictly longer than the previous one. *)
Theorem backoff_increasing (bd : Z) (jitter : nat -> Z) (i : nat)
    (Hbd : 2000 <= bd) (Hj : forall k, 0 <= jitter k < 2000) :
  backoff bd jitter i < backoff bd jitter (S i).
Proof.
  unfold backoff. rewrite Nat2Z.inj_succ, Z.pow_succ_r by lia.
  pose proof (Hj i). pose proof (Hj (S i)).
  assert (0 < 2 ^ Z.of_nat i) by (apply Z.pow_pos_nonneg; lia).
  nia.
Qed.

Lemma backoff_increasing_witness :
  backoff (RetryV2.baseDelay false) no_jitter 1 < backoff (RetryV2.baseDelay false) no_jitter 2.
Proof.
  apply backoff_increasing; [cbn; lia |]. intros k. unfold no_jitter. lia.
Defined.

(** Witnesses for earlier theorems with hypotheses. *)
Lemma retry_v2_exhausted_rethrows_witness :
  RetryV2.callGeminiWithRetry (fun i => @Reject unit ((fun _ => overloaded) i)) true no_jitter
  = mkRun (Raised ((fun _ => overloaded) 2%nat)) 3
      [backoff (RetryV2.baseDelay true) no_jitter 0; backoff (RetryV2.baseDelay true) no_jitter 1].
Proof. apply (retry_v2_exhausted_rethrows (fun _ => overloaded)). reflexivity. Defined.

Lemma index_v1_refund_at_most_once_witness :
  let w5 := world_with "j5" (mkRow job_j5 Processing None None) in
  let s1 := Concurrent.first_step job_j5 overloaded [overloaded] 0 w5 in
  let s2 := Concurrent.first_step job_j5 overloaded [] 1 (snd s1) in
  let s3 := (Concurrent.mkThreads [] 0, refund (user_id job_j5) (credits_used job_j5) (snd s2)) in
  rtc (Concurrent.comp_step job_j5) (Concurrent.mkThreads [overloaded; overloaded] 0, w5) s3 /\
  length (refunds (snd s3)) = 1%nat /\
  (length (refunds (snd s3)) <= length (refunds w5) + 1)%nat.
Proof.
  intros w5 s1 s2 s3.
  assert (Hrun : rtc (Concurrent.comp_step job_j5)
                   (Concurrent.mkThreads [overloaded; overloaded] 0, w5) s3).
  { eapply rtc_l.
    { exact (Concurrent.step_start job_j5 0 overloaded
               (Concurrent.mkThreads [overloaded; overloaded] 0) w5 eq_refl). }
    change (rtc (Concurrent.comp_step job_j5)
              (Concurrent.mkThreads [overloaded] 1, snd s1) s3).
    eapply rtc_l.
    { exact (Concurrent.step_start job_j5 0 overloaded
               (Concurrent.mkThreads [overloaded] 1) (snd s1) eq_refl). }
    change (rtc (Concurrent.comp_step job_j5)
              (Concurrent.mkThreads [] 1, snd s2) s3).
    eapply rtc_l; [apply Concurrent.step_refund | apply rtc_refl]. }
  split_and!; [exact Hrun | reflexivity |].
  exact (index_v1_refund_at_most_once job_j5 [overloaded; overloaded] w5 s3 Hrun).
Defined.
